(** * AddressSanitizer per-thread state ([libsanitizer/asan/asan_thread.h])

    A shallow embedding of the inline members of [AsanThread], of the
    scoped guards [ScopedUnwinding] and [ScopedDeadlySignal], and the
    properties of the stack-descriptor rotation and of the fake-stack glue.

    Conventions.
    - [uptr] values are integers in [0, 2^64); the only arithmetic the
      header does on them ([base + size]) is written with its wrap-around.
    - A [StackDescriptor*] is [option slot]: [None] is [nullptr] and
      [Some i] is [&stacks_[i]].  Dereferencing [nullptr] is a fault.
    - An [AsanThread*] is [option nat]: [None] is [nullptr], [Some l] the
      thread object stored at location [l] of a heap of thread objects.
    - [(uptr)&local] in [CurrentStack], the address of a local of the
      caller's frame, is the explicit argument [sp]. *)

From Stdlib Require Import ZArith Bool List Lia.
From stdpp Require Import base decidable option gmap.
Import ListNotations.

Local Open Scope Z_scope.

(** ** Machine integers *)

Module Uptr.

Definition bits : Z := 64.
Definition modulus : Z := 2 ^ bits.

(** Reduction of an integer to its [uptr] representative. *)
Definition wrap (z : Z) : Z := z mod modulus.

(** [base + size] on [uptr]. *)
Definition add (a b : Z) : Z := wrap (a + b).

(** [a - b] on [uptr]. *)
Definition sub (a b : Z) : Z := wrap (a - b).

(** The values an [uptr] variable can hold. *)
Definition is_uptr (z : Z) : Prop := 0 <= z < modulus.

End Uptr.

(** ** Faults and the result monad *)

Inductive fault : Set :=
| NullDeref   (* a member access through [nullptr] *)
| WildDeref.  (* a member access through a pointer to no live object *)

Inductive result (A : Type) : Type :=
| Ok (a : A)
| Fault (f : fault).

Arguments Ok {A} a.
Arguments Fault {A} f.

Definition bind {A B : Type} (m : result A) (k : A -> result B) : result B :=
  match m with
  | Ok a => k a
  | Fault f => Fault f
  end.

Notation "'let!' x ':=' m 'in' k" := (bind m (fun x => k))
  (at level 10, x name, m at level 100, k at level 200).

(** ** Data model *)

(** [struct StackDescriptor]; the header's comment on it reads
    [stack_size == stack_top - stack_bottom]. *)
Record StackDescriptor : Set := mkDesc {
  stack_top : Z;
  stack_bottom : Z;
  stack_size : Z
}.

(** Index into [StackDescriptor stacks_[3]]. *)
Inductive slot : Set := Slot0 | Slot1 | Slot2.

#[global] Instance slot_eq_dec : EqDecision slot.
Proof. solve_decision. Defined.

(** [StackDescriptor*]. *)
Definition desc_ptr : Set := option slot.

(** The array [stacks_[3]]. *)
Record stack_array : Set := mkStacks {
  elt0 : StackDescriptor;
  elt1 : StackDescriptor;
  elt2 : StackDescriptor
}.

Definition stacks_get (a : stack_array) (i : slot) : StackDescriptor :=
  match i with
  | Slot0 => elt0 a
  | Slot1 => elt1 a
  | Slot2 => elt2 a
  end.

Definition stacks_set (a : stack_array) (i : slot) (d : StackDescriptor)
  : stack_array :=
  match i with
  | Slot0 => mkStacks d (elt1 a) (elt2 a)
  | Slot1 => mkStacks (elt0 a) d (elt2 a)
  | Slot2 => mkStacks (elt0 a) (elt1 a) d
  end.

(** The data members of [class AsanThread] that the inline members of the
    header read or write.  [context_], [start_routine_], [arg_],
    [malloc_storage_] and [stats_] are touched only by plain accessors or by
    asan_thread.cc and are left out.  [fake_stack_] is kept as the integer the
    header compares it as ([reinterpret_cast<uptr>(fake_stack_) > 1]). *)
Record AsanThread : Set := mkThread {
  stacks_ : stack_array;
  temp_stack_ : desc_ptr;
  next_stack_ : desc_ptr;
  previous_stack_ : desc_ptr;
  tls_begin_ : Z;
  tls_end_ : Z;
  fake_stack_ : Z;
  unwinding_ : bool;
  in_deadly_signal_ : bool
}.

(** The object as [mmap] hands it out: every byte zero. *)
Definition zero_desc : StackDescriptor := mkDesc 0 0 0.

Definition zero_thread : AsanThread :=
  mkThread (mkStacks zero_desc zero_desc zero_desc)
           None None None 0 0 0 false false.

(** Field updates. *)
Definition with_stacks (a : stack_array) (t : AsanThread) : AsanThread :=
  mkThread a (temp_stack_ t) (next_stack_ t) (previous_stack_ t)
           (tls_begin_ t) (tls_end_ t) (fake_stack_ t)
           (unwinding_ t) (in_deadly_signal_ t).

Definition with_temp (p : desc_ptr) (t : AsanThread) : AsanThread :=
  mkThread (stacks_ t) p (next_stack_ t) (previous_stack_ t)
           (tls_begin_ t) (tls_end_ t) (fake_stack_ t)
           (unwinding_ t) (in_deadly_signal_ t).

Definition with_next (p : desc_ptr) (t : AsanThread) : AsanThread :=
  mkThread (stacks_ t) (temp_stack_ t) p (previous_stack_ t)
           (tls_begin_ t) (tls_end_ t) (fake_stack_ t)
           (unwinding_ t) (in_deadly_signal_ t).

Definition with_previous (p : desc_ptr) (t : AsanThread) : AsanThread :=
  mkThread (stacks_ t) (temp_stack_ t) (next_stack_ t) p
           (tls_begin_ t) (tls_end_ t) (fake_stack_ t)
           (unwinding_ t) (in_deadly_signal_ t).

Definition with_fake_stack (v : Z) (t : AsanThread) : AsanThread :=
  mkThread (stacks_ t) (temp_stack_ t) (next_stack_ t) (previous_stack_ t)
           (tls_begin_ t) (tls_end_ t) v
           (unwinding_ t) (in_deadly_signal_ t).

(** [p->field] as an rvalue. *)
Definition load (p : desc_ptr) (t : AsanThread) : result StackDescriptor :=
  match p with
  | None => Fault NullDeref
  | Some i => Ok (stacks_get (stacks_ t) i)
  end.

(** [p->field = v], given as the update [f] of the pointee. *)
Definition store (p : desc_ptr) (f : StackDescriptor -> StackDescriptor)
                 (t : AsanThread) : result AsanThread :=
  match p with
  | None => Fault NullDeref
  | Some i =>
      Ok (with_stacks (stacks_set (stacks_ t) i (f (stacks_get (stacks_ t) i))) t)
  end.

Definition set_top (v : Z) (d : StackDescriptor) : StackDescriptor :=
  mkDesc v (stack_bottom d) (stack_size d).
Definition set_bottom (v : Z) (d : StackDescriptor) : StackDescriptor :=
  mkDesc (stack_top d) v (stack_size d).
Definition set_size (v : Z) (d : StackDescriptor) : StackDescriptor :=
  mkDesc (stack_top d) (stack_bottom d) v.

(** ** Stack descriptors: the inline members *)

(** [addr >= stack->stack_bottom && addr < stack->stack_top] on a descriptor
    value. *)
Definition in_range (d : StackDescriptor) (addr : Z) : bool :=
  (stack_bottom d <=? addr) && (addr <? stack_top d).

(** [void SetUserStack(uptr base, uptr size)]. *)
Definition SetUserStack (base size : Z) (t : AsanThread) : result AsanThread :=
  let! t := store (temp_stack_ t) (set_bottom base) t in
  let! t := store (temp_stack_ t) (set_top (Uptr.add base size)) t in
  let! t := store (temp_stack_ t) (set_size size) t in
  let oprev := previous_stack_ t in
  let t := with_previous (next_stack_ t) t in
  let t := with_next (temp_stack_ t) t in
  Ok (with_temp oprev t).

(** [void RestorePreviousUserStack()]. *)
Definition RestorePreviousUserStack (t : AsanThread) : result AsanThread :=
  let! d := load (previous_stack_ t) t in
  SetUserStack (stack_bottom d) (stack_size d) t.

(** [bool AddrIsInStack(StackDescriptor *stack, uptr addr)]. *)
Definition AddrIsInStack_in (stack : desc_ptr) (addr : Z) (t : AsanThread)
  : result bool :=
  let! d := load stack t in
  Ok (in_range d addr).

(** [StackDescriptor *CurrentStack()]. *)
Definition CurrentStack (sp : Z) (t : AsanThread) : result desc_ptr :=
  let! b := AddrIsInStack_in (previous_stack_ t) sp t in
  if b then Ok (previous_stack_ t) else Ok (next_stack_ t).

(** [bool AddrIsInStack(uptr addr)]. *)
Definition AddrIsInStack (sp addr : Z) (t : AsanThread) : result bool :=
  let! cur := CurrentStack sp t in
  AddrIsInStack_in cur addr t.

(** [uptr stack_top()], [uptr stack_bottom()], [uptr stack_size()]. *)
Definition get_stack_top (sp : Z) (t : AsanThread) : result Z :=
  let! cur := CurrentStack sp t in
  let! d := load cur t in
  Ok (stack_top d).

Definition get_stack_bottom (sp : Z) (t : AsanThread) : result Z :=
  let! cur := CurrentStack sp t in
  let! d := load cur t in
  Ok (stack_bottom d).

Definition get_stack_size (sp : Z) (t : AsanThread) : result Z :=
  let! cur := CurrentStack sp t in
  let! d := load cur t in
  Ok (stack_size d).

(** [*CurrentStack()]: the descriptor the accessors read. *)
Definition current_desc (sp : Z) (t : AsanThread) : result StackDescriptor :=
  let! cur := CurrentStack sp t in
  load cur t.

(** [uptr tls_begin()], [uptr tls_end()]. *)
Definition tls_begin (t : AsanThread) : Z := tls_begin_ t.
Definition tls_end (t : AsanThread) : Z := tls_end_ t.

(** [isUnwinding], [setUnwinding], [isInDeadlySignal], [setInDeadlySignal]. *)
Definition isUnwinding (t : AsanThread) : bool := unwinding_ t.

Definition setUnwinding (b : bool) (t : AsanThread) : AsanThread :=
  mkThread (stacks_ t) (temp_stack_ t) (next_stack_ t) (previous_stack_ t)
           (tls_begin_ t) (tls_end_ t) (fake_stack_ t)
           b (in_deadly_signal_ t).

Definition isInDeadlySignal (t : AsanThread) : bool := in_deadly_signal_ t.

Definition setInDeadlySignal (b : bool) (t : AsanThread) : AsanThread :=
  mkThread (stacks_ t) (temp_stack_ t) (next_stack_ t) (previous_stack_ t)
           (tls_begin_ t) (tls_end_ t) (fake_stack_ t)
           (unwinding_ t) b.

(** [bool has_fake_stack()]. *)
Definition has_fake_stack (t : AsanThread) : bool := 1 <? fake_stack_ t.

(** ** The rotation, statement by statement

    An asynchronous signal delivered to the thread can run between any two
    statements of [SetUserStack].  The body is therefore also given as the
    sequence of its seven statements over the thread and the local [oprev];
    a signal handler observes the thread after some prefix of them. *)

Inductive stmt : Set :=
| StoreTempBottom (v : Z)   (* temp_stack_->stack_bottom = v *)
| StoreTempTop (v : Z)      (* temp_stack_->stack_top = v *)
| StoreTempSize (v : Z)     (* temp_stack_->stack_size = v *)
| LoadOprev                 (* StackDescriptor* oprev = previous_stack_ *)
| PreviousGetsNext          (* previous_stack_ = next_stack_ *)
| NextGetsTemp              (* next_stack_ = temp_stack_ *)
| TempGetsOprev.            (* temp_stack_ = oprev *)

Record frame : Set := mkFrame {
  this : AsanThread;
  oprev : desc_ptr
}.

Definition exec_stmt (s : stmt) (f : frame) : result frame :=
  let t := this f in
  match s with
  | StoreTempBottom v =>
      let! t' := store (temp_stack_ t) (set_bottom v) t in Ok (mkFrame t' (oprev f))
  | StoreTempTop v =>
      let! t' := store (temp_stack_ t) (set_top v) t in Ok (mkFrame t' (oprev f))
  | StoreTempSize v =>
      let! t' := store (temp_stack_ t) (set_size v) t in Ok (mkFrame t' (oprev f))
  | LoadOprev => Ok (mkFrame t (previous_stack_ t))
  | PreviousGetsNext => Ok (mkFrame (with_previous (next_stack_ t) t) (oprev f))
  | NextGetsTemp => Ok (mkFrame (with_next (temp_stack_ t) t) (oprev f))
  | TempGetsOprev => Ok (mkFrame (with_temp (oprev f) t) (oprev f))
  end.

Fixpoint exec_stmts (ss : list stmt) (f : frame) : result frame :=
  match ss with
  | [] => Ok f
  | s :: ss' => let! f' := exec_stmt s f in exec_stmts ss' f'
  end.

(** The body of [SetUserStack], in source order. *)
Definition SetUserStack_body (base size : Z) : list stmt :=
  [ StoreTempBottom base;
    StoreTempTop (Uptr.add base size);
    StoreTempSize size;
    LoadOprev;
    PreviousGetsNext;
    NextGetsTemp;
    TempGetsOprev ].

(** The thread as a signal handler finds it after the first [k] statements
    of [SetUserStack(base, size)]. *)
Definition interrupted_at (k : nat) (base size : Z) (t : AsanThread)
  : result AsanThread :=
  let! f := exec_stmts (firstn k (SetUserStack_body base size)) (mkFrame t None) in
  Ok (this f).

(** What such an observer reads through the two committed role pointers. *)
Definition committed_view (t : AsanThread)
  : result (StackDescriptor * StackDescriptor) :=
  let! p := load (previous_stack_ t) t in
  let! n := load (next_stack_ t) t in
  Ok (p, n).

(** ** Sequences of stack changes *)

Inductive stack_op : Set :=
| OpSetUserStack (base size : Z)
| OpRestorePreviousUserStack.

Definition run_op (o : stack_op) (t : AsanThread) : result AsanThread :=
  match o with
  | OpSetUserStack base size => SetUserStack base size t
  | OpRestorePreviousUserStack => RestorePreviousUserStack t
  end.

Fixpoint run_ops (os : list stack_op) (t : AsanThread) : result AsanThread :=
  match os with
  | [] => Ok t
  | o :: os' => let! t' := run_op o t in run_ops os' t'
  end.

(** ** State predicates *)

(** The three role pointers designate three different elements of
    [stacks_]. *)
Definition roles_distinct (t : AsanThread) : Prop :=
  exists p n m,
    previous_stack_ t = Some p /\ next_stack_ t = Some n /\
    temp_stack_ t = Some m /\ p <> n /\ p <> m /\ n <> m.

(** Every element of [stacks_] is held by one of the three roles. *)
Definition roles_cover (t : AsanThread) : Prop :=
  forall i : slot,
    previous_stack_ t = Some i \/ next_stack_ t = Some i \/
    temp_stack_ t = Some i.

(** Boolean form of [roles_distinct]. *)
Definition roles_distinctb (t : AsanThread) : bool :=
  match previous_stack_ t, next_stack_ t, temp_stack_ t with
  | Some p, Some n, Some m =>
      negb (bool_decide (p = n)) && negb (bool_decide (p = m))
      && negb (bool_decide (n = m))
  | _, _, _ => false
  end.

(** The fields of a descriptor are [uptr] values. *)
Definition desc_typed (d : StackDescriptor) : Prop :=
  Uptr.is_uptr (stack_top d) /\ Uptr.is_uptr (stack_bottom d) /\
  Uptr.is_uptr (stack_size d).

(** [stack_size == stack_top - stack_bottom], in [uptr] arithmetic. *)
Definition desc_consistent (d : StackDescriptor) : Prop :=
  stack_size d = Uptr.sub (stack_top d) (stack_bottom d).

(** ** Fake-stack glue

    [DeleteFakeStack] and [fake_stack] call out of the header:
    [SetTLSFakeStack] and [FakeStack::Destroy] (asan_fake_stack.h) and
    [AsyncSignalSafeLazyInitFakeStack] (asan_thread.cc).  The world they run in
    is the thread object, the thread-local fast-path slot, the global option
    [__asan_option_detect_stack_use_after_return] and the sequence of calls
    made so far into the fake-stack collaborator. *)

Inductive call : Set :=
| CallSetTLSFakeStack (fs : Z)    (* SetTLSFakeStack(fs) *)
| CallDestroy (fs : Z) (tid : Z)  (* fs->Destroy(tid) *)
| CallCreate.                     (* construction of a FakeStack *)

Record world : Set := mkWorld {
  self : AsanThread;
  tls_fake_stack : Z;
  detect_stack_use_after_return : Z;
  calls : list call
}.

Definition with_self (t : AsanThread) (w : world) : world :=
  mkWorld t (tls_fake_stack w) (detect_stack_use_after_return w) (calls w).

(** Modelled from the spec: [SetTLSFakeStack], declared in asan_fake_stack.h,
    sets the fast thread-local slot the instrumentation reads. *)
Definition SetTLSFakeStack (fs : Z) (w : world) : world :=
  mkWorld (self w) fs (detect_stack_use_after_return w)
          (calls w ++ [CallSetTLSFakeStack fs]).

(** Modelled from the spec: [FakeStack::Destroy(tid)], declared in
    asan_fake_stack.h, is the collaborator's own teardown; here it is the
    record of the call. *)
Definition FakeStack_Destroy (fs tid : Z) (w : world) : world :=
  mkWorld (self w) (tls_fake_stack w) (detect_stack_use_after_return w)
          (calls w ++ [CallDestroy fs tid]).

(** [void DeleteFakeStack(int tid)], over the behaviour [destroy] of the
    collaborator's [Destroy(tid)].  The teardown is handed the world as it is
    when [t->Destroy(tid)] is reached and may read all of it: the thread
    object, the thread-local slot, the calls made so far. *)
Definition DeleteFakeStack_with (destroy : Z -> Z -> world -> world)
                                (tid : Z) (w : world) : world :=
  if fake_stack_ (self w) =? 0 then w
  else
    let t := fake_stack_ (self w) in
    let w := with_self (with_fake_stack 0 (self w)) w in
    let w := SetTLSFakeStack 0 w in
    destroy t tid w.

(** [DeleteFakeStack] with the teardown that records its call. *)
Definition DeleteFakeStack (tid : Z) (w : world) : world :=
  DeleteFakeStack_with FakeStack_Destroy tid w.


Section FakeStackAccessor.

(** [AsyncSignalSafeLazyInitFakeStack] is defined in asan_thread.cc; the
    accessor is stated for any behaviour of it. *)
Variable AsyncSignalSafeLazyInitFakeStack : world -> Z * world.

(** [FakeStack *fake_stack()]. *)
Definition fake_stack (w : world) : Z * world :=
  if detect_stack_use_after_return w =? 0 then (0, w)
  else if negb (has_fake_stack (self w))
       then AsyncSignalSafeLazyInitFakeStack w
       else (fake_stack_ (self w), w).

(** [n] calls of the accessor in a row: the results and the final world. *)
Fixpoint fake_stack_calls (n : nat) (w : world) : list Z * world :=
  match n with
  | O => ([], w)
  | S n' =>
      let (r, w1) := fake_stack w in
      let (rs, w2) := fake_stack_calls n' w1 in
      (r :: rs, w2)
  end.

End FakeStackAccessor.

(** A lazy initialiser for the examples: it constructs a fake stack at a
    fixed address unless one is there or under construction. *)
Definition sample_lazy_init (w : world) : Z * world :=
  if fake_stack_ (self w) =? 0
  then (4096,
        mkWorld (with_fake_stack 4096 (self w)) 4096
                (detect_stack_use_after_return w)
                (calls w ++ [CallCreate; CallSetTLSFakeStack 4096]))
  else (0, w).

(** ** Scoped guards

    The guards hold an [AsanThread*]; thread objects live in a heap. *)

Definition thread_ptr : Set := option nat.

(** [p->m(...)] for a member [m] that updates the object. *)
Definition call_member (p : thread_ptr) (m : AsanThread -> AsanThread)
                       (h : gmap nat AsanThread) : result (gmap nat AsanThread) :=
  match p with
  | None => Fault NullDeref
  | Some l =>
      match h !! l with
      | Some t => Ok (<[l := m t]> h)
      | None => Fault WildDeref
      end
  end.

(** [class ScopedUnwinding]. *)
Record ScopedUnwinding : Set := mkScopedUnwinding {
  su_thread : thread_ptr
}.

(** [explicit ScopedUnwinding(AsanThread *t)]. *)
Definition ScopedUnwinding_enter (t : thread_ptr) (h : gmap nat AsanThread)
  : result (ScopedUnwinding * gmap nat AsanThread) :=
  let g := mkScopedUnwinding t in
  let! h' := call_member t (setUnwinding true) h in
  Ok (g, h').

(** [~ScopedUnwinding()]. *)
Definition ScopedUnwinding_exit (g : ScopedUnwinding) (h : gmap nat AsanThread)
  : result (gmap nat AsanThread) :=
  call_member (su_thread g) (setUnwinding false) h.

(** [class ScopedDeadlySignal]. *)
Record ScopedDeadlySignal : Set := mkScopedDeadlySignal {
  sd_thread : thread_ptr
}.

(** [explicit ScopedDeadlySignal(AsanThread *t)]. *)
Definition ScopedDeadlySignal_enter (t : thread_ptr) (h : gmap nat AsanThread)
  : result (ScopedDeadlySignal * gmap nat AsanThread) :=
  let g := mkScopedDeadlySignal t in
  match sd_thread g with
  | Some _ =>
      let! h' := call_member (sd_thread g) (setInDeadlySignal true) h in
      Ok (g, h')
  | None => Ok (g, h)
  end.

(** [~ScopedDeadlySignal()]. *)
Definition ScopedDeadlySignal_exit (g : ScopedDeadlySignal)
                                   (h : gmap nat AsanThread)
  : result (gmap nat AsanThread) :=
  match sd_thread g with
  | Some _ => call_member (sd_thread g) (setInDeadlySignal false) h
  | None => Ok h
  end.

(** [{ ScopedUnwinding g(t); body }]. *)
Definition unwinding_scope (t : thread_ptr)
    (body : gmap nat AsanThread -> result (gmap nat AsanThread))
    (h : gmap nat AsanThread) : result (gmap nat AsanThread) :=
  let! gh := ScopedUnwinding_enter t h in
  let! h' := body (snd gh) in
  ScopedUnwinding_exit (fst gh) h'.

(** [{ ScopedDeadlySignal g(t); body }]. *)
Definition deadly_signal_scope (t : thread_ptr)
    (body : gmap nat AsanThread -> result (gmap nat AsanThread))
    (h : gmap nat AsanThread) : result (gmap nat AsanThread) :=
  let! gh := ScopedDeadlySignal_enter t h in
  let! h' := body (snd gh) in
  ScopedDeadlySignal_exit (fst gh) h'.

(** ** The rotation as one step

    The thread [SetUserStack] leaves behind when [temp_stack_] is
    [&stacks_[m]] and the descriptor written there is [d]: the element [m]
    holds [d], previous takes over next's element, next takes over [m] and
    temp takes over previous's element. *)
Definition rotated (m : slot) (d : StackDescriptor) (t : AsanThread)
  : AsanThread :=
  mkThread (stacks_set (stacks_ t) m d)
           (previous_stack_ t) (Some m) (next_stack_ t)
           (tls_begin_ t) (tls_end_ t) (fake_stack_ t)
           (unwinding_ t) (in_deadly_signal_ t).

(** The descriptor [SetUserStack(base, size)] writes. *)
Definition user_desc (base size : Z) : StackDescriptor :=
  mkDesc (Uptr.add base size) base size.

(** ** Sample states *)

(** A thread with the given array and role pointers and every other member
    zero. *)
Definition thread_of (a : stack_array) (tmp nxt prv : desc_ptr) : AsanThread :=
  mkThread a tmp nxt prv 0 0 0 false false.

(** Element 0 holds [100, 200) in the previous role, element 1 holds
    [300, 400) in the next role, element 2 is the temp. *)
Definition two_stacks : AsanThread :=
  thread_of (mkStacks (mkDesc 200 100 100) (mkDesc 400 300 100) zero_desc)
            (Some Slot2) (Some Slot1) (Some Slot0).

(** The claimed membership test: the address lies in exactly one of the two
    committed descriptors' ranges. *)
Definition in_exactly_one_committed (addr : Z) (t : AsanThread) : result bool :=
  let! v := committed_view t in
  Ok (xorb (in_range (fst v) addr) (in_range (snd v) addr)).

(** [SetUserStack(base, size)] followed by [RestorePreviousUserStack()]. *)
Definition excursion (base size : Z) (t : AsanThread) : result AsanThread :=
  let! t1 := SetUserStack base size t in
  RestorePreviousUserStack t1.

(** ** Validity of descriptors and sample worlds *)

(** A descriptor whose fields are [uptr] values and satisfy the equation. *)
Definition desc_valid (d : StackDescriptor) : Prop :=
  desc_typed d /\ desc_consistent d.

Definition committed_valid (t : AsanThread) : Prop :=
  exists p n,
    load (previous_stack_ t) t = Ok p /\ load (next_stack_ t) t = Ok n /\
    desc_valid p /\ desc_valid n.



(** A world with the option off and a fake stack at 4096 already in place. *)
Definition disabled_world : world :=
  mkWorld (with_fake_stack 4096 two_stacks) 4096 0 [].

(** The zero-filled thread once its role pointers are set on the three
    elements; the descriptors are still all zero. *)
Definition zero_thread_roles : AsanThread :=
  thread_of (mkStacks zero_desc zero_desc zero_desc)
            (Some Slot2) (Some Slot1) (Some Slot0).

(** A heap with the sample thread at location 0. *)
Definition one_thread_heap : gmap nat AsanThread := {[ 0%nat := two_stacks ]}.

(** ** Thread identifiers *)

(** [const u32 kInvalidTid = 0xffffff;  // Must fit into 24 bits.] *)
Definition kInvalidTid : Z := 0xffffff.

(** [const u32 kMaxNumberOfThreads = (1 << 22);  // 4M] *)
Definition kMaxNumberOfThreads : Z := Z.shiftl 1 22.

(** ** Role assignments and repeated teardown *)

(** The three role pointers, in the order previous, next, temp. *)
Definition roles_of (t : AsanThread) : desc_ptr * desc_ptr * desc_ptr :=
  (previous_stack_ t, next_stack_ t, temp_stack_ t).

(** One rotation of a role assignment: previous takes next's element, next
    takes temp's and temp takes previous's. *)
Definition rotate_roles (r : desc_ptr * desc_ptr * desc_ptr)
  : desc_ptr * desc_ptr * desc_ptr :=
  let '(p, n, m) := r in (n, m, p).

(** No role pointer is null. *)
Definition roles_set (t : AsanThread) : Prop :=
  previous_stack_ t <> None /\ next_stack_ t <> None /\ temp_stack_ t <> None.

(** [DeleteFakeStack(tid)] for each [tid] of a list, in order. *)
Definition DeleteFakeStack_each (tids : list Z) (w : world) : world :=
  fold_left (fun w tid => DeleteFakeStack tid w) tids w.

(** The number of [Destroy] calls in a record of calls. *)
Definition destroy_count (cs : list call) : nat :=
  length (List.filter
            (fun c => match c with CallDestroy _ _ => true | _ => false end) cs).

(** * Properties *)

(** ** Arithmetic on [uptr] *)

Module UptrFacts.
Import Uptr.

Lemma modulus_pos : 0 < modulus.
Proof. reflexivity. Qed.

Lemma wrap_range z : is_uptr (wrap z).
Proof. unfold is_uptr, wrap. apply Z.mod_pos_bound, modulus_pos. Qed.

Lemma wrap_small z : is_uptr z -> wrap z = z.
Proof. unfold is_uptr, wrap. intros H. now apply Z.mod_small. Qed.

Lemma sub_add_cancel a b : is_uptr b -> sub (add a b) a = b.
Proof.
  intros Hb. unfold sub, add, wrap.
  rewrite Zminus_mod_idemp_l.
  replace (a + b - a) with b by lia.
  now apply Z.mod_small.
Qed.

Lemma add_sub_cancel a b : is_uptr a -> add b (sub a b) = a.
Proof.
  intros Ha. unfold sub, add, wrap.
  rewrite Zplus_mod_idemp_r.
  replace (b + (a - b)) with a by lia.
  now apply Z.mod_small.
Qed.

End UptrFacts.

(** ** Loads and stores *)

Lemma stacks_get_set_eq a i d : stacks_get (stacks_set a i d) i = d.
Proof. destruct i; reflexivity. Qed.

Lemma stacks_get_set_ne a i j d :
  i <> j -> stacks_get (stacks_set a i d) j = stacks_get a j.
Proof. destruct i, j; intros H; try reflexivity; contradiction H; reflexivity. Qed.

Lemma stacks_set_set a i d d' :
  stacks_set (stacks_set a i d) i d' = stacks_set a i d'.
Proof. destruct i; reflexivity. Qed.

Lemma load_Some i t : load (Some i) t = Ok (stacks_get (stacks_ t) i).
Proof. reflexivity. Qed.


Lemma SetUserStack_rotated t m base size :
  temp_stack_ t = Some m ->
  SetUserStack base size t = Ok (rotated m (user_desc base size) t).
Proof.
  intros Hm. destruct t as [a tmp nxt prv tb te fs u ds].
  simpl in Hm. subst tmp.
  destruct m; reflexivity.
Qed.

Lemma SetUserStack_null_temp t base size :
  temp_stack_ t = None -> SetUserStack base size t = Fault NullDeref.
Proof. intros Hm. unfold SetUserStack. rewrite Hm. reflexivity. Qed.

Lemma RestorePreviousUserStack_rotated t p m :
  previous_stack_ t = Some p ->
  temp_stack_ t = Some m ->
  RestorePreviousUserStack t =
    Ok (rotated m (user_desc (stack_bottom (stacks_get (stacks_ t) p))
                             (stack_size (stacks_get (stacks_ t) p))) t).
Proof.
  intros Hp Hm. unfold RestorePreviousUserStack. rewrite Hp. cbn.
  now apply SetUserStack_rotated.
Qed.

(** ** Which descriptor is current *)

Lemma CurrentStack_eq t sp p :
  previous_stack_ t = Some p ->
  CurrentStack sp t =
    Ok (if in_range (stacks_get (stacks_ t) p) sp
        then Some p else next_stack_ t).
Proof.
  intros Hp. unfold CurrentStack, AddrIsInStack_in. rewrite Hp. cbn.
  destruct (in_range _ sp); reflexivity.
Qed.

Lemma current_desc_eq t sp p n :
  previous_stack_ t = Some p ->
  next_stack_ t = Some n ->
  current_desc sp t =
    Ok (if in_range (stacks_get (stacks_ t) p) sp
        then stacks_get (stacks_ t) p else stacks_get (stacks_ t) n).
Proof.
  intros Hp Hn. unfold current_desc. rewrite (CurrentStack_eq t sp p Hp), Hn.
  cbn. destruct (in_range _ sp); reflexivity.
Qed.

Lemma current_desc_of_view t sp A B :
  committed_view t = Ok (A, B) ->
  current_desc sp t = Ok (if in_range A sp then A else B).
Proof.
  unfold committed_view. intros H.
  destruct (previous_stack_ t) as [p|] eqn:Hp; [|discriminate].
  destruct (next_stack_ t) as [n|] eqn:Hn; [|discriminate].
  cbn in H. inversion H; subst.
  now rewrite (current_desc_eq t sp p n Hp Hn).
Qed.

(** C7. With both committed role pointers set, [CurrentStack()] returns
    [previous_stack_] when the caller's stack address lies in the previous
    descriptor's [bottom, top) range and [next_stack_] in every other case
    (when the two pointers differ, it returns [previous_stack_] exactly in the
    first case); [stack_top()], [stack_bottom()], [stack_size()] and
    [AddrIsInStack(addr)] all read the descriptor [CurrentStack()] returns. *)
Theorem CurrentStack_resolves (t : AsanThread) (sp : Z) (p n : slot) :
  previous_stack_ t = Some p ->
  next_stack_ t = Some n ->
  let P := stacks_get (stacks_ t) p in
  let cur := if in_range P sp then p else n in
  let D := stacks_get (stacks_ t) cur in
  (in_range P sp = true -> CurrentStack sp t = Ok (previous_stack_ t)) /\
  (in_range P sp = false -> CurrentStack sp t = Ok (next_stack_ t)) /\
  (p <> n -> (CurrentStack sp t = Ok (previous_stack_ t) <-> in_range P sp = true)) /\
  in_range P sp = (stack_bottom P <=? sp) && (sp <? stack_top P) /\
  get_stack_top sp t = Ok (stack_top D) /\
  get_stack_bottom sp t = Ok (stack_bottom D) /\
  get_stack_size sp t = Ok (stack_size D) /\
  (forall addr, AddrIsInStack sp addr t = Ok (in_range D addr)).
Proof.
  intros Hp Hn P cur D.
  pose proof (CurrentStack_eq t sp p Hp) as HC. fold P in HC.
  assert (Hcur : CurrentStack sp t = Ok (Some cur)).
  { rewrite HC. unfold cur. rewrite Hn. destruct (in_range P sp); reflexivity. }
  repeat split.
  - intros Hin. rewrite HC, Hin, Hp. reflexivity.
  - intros Hin. rewrite HC, Hin. reflexivity.
  - rewrite HC, Hp, Hn. destruct (in_range P sp); [reflexivity|].
    intros Heq. inversion Heq. congruence.
  - intros Hin. rewrite HC, Hin, Hp. reflexivity.
  - unfold get_stack_top. rewrite Hcur. reflexivity.
  - unfold get_stack_bottom. rewrite Hcur. reflexivity.
  - unfold get_stack_size. rewrite Hcur. reflexivity.
  - intros addr. unfold AddrIsInStack. rewrite Hcur. reflexivity.
Qed.

Lemma CurrentStack_resolves_witness :
  CurrentStack 150 two_stacks = Ok (Some Slot0) /\
  CurrentStack 350 two_stacks = Ok (Some Slot1) /\
  get_stack_top 350 two_stacks = Ok 400.
Proof.
  destruct (CurrentStack_resolves two_stacks 150 Slot0 Slot1 eq_refl eq_refl)
    as (H1 & _).
  destruct (CurrentStack_resolves two_stacks 350 Slot0 Slot1 eq_refl eq_refl)
    as (_ & H2 & _ & _ & H3 & _).
  split; [apply H1; reflexivity|].
  split; [apply H2; reflexivity|].
  exact H3.
Defined.

(** ** Membership in the stack *)

(** C1, as claimed, fails: standing on the previous stack [100, 200), the
    address 350 lies in exactly one committed range, that of next,
    [300, 400), and [AddrIsInStack(350)] answers false. *)
Lemma AddrIsInStack_not_either_committed :
  in_exactly_one_committed 350 two_stacks = Ok true /\
  AddrIsInStack 150 350 two_stacks = Ok false.
Proof. split; reflexivity. Qed.

(** C1, amended.  [AddrIsInStack(addr)] is true exactly when [addr] lies in
    the [bottom, top) range of the one committed descriptor [CurrentStack()]
    selects (previous when the caller's stack address lies in previous's
    range, next otherwise).  So a true answer places [addr] in the range of
    previous or of next, and the answer does not depend on what the element
    in the temp role holds. *)
Theorem AddrIsInStack_current (t : AsanThread) (sp addr : Z) (p n : slot) :
  previous_stack_ t = Some p ->
  next_stack_ t = Some n ->
  let P := stacks_get (stacks_ t) p in
  let N := stacks_get (stacks_ t) n in
  (AddrIsInStack sp addr t = Ok true <->
     in_range (if in_range P sp then P else N) addr = true) /\
  (AddrIsInStack sp addr t = Ok false <->
     in_range (if in_range P sp then P else N) addr = false) /\
  (AddrIsInStack sp addr t = Ok true ->
     in_range P addr = true \/ in_range N addr = true) /\
  (forall m d, temp_stack_ t = Some m -> m <> p -> m <> n ->
     AddrIsInStack sp addr (with_stacks (stacks_set (stacks_ t) m d) t) =
     AddrIsInStack sp addr t).
Proof.
  intros Hp Hn P N.
  assert (HA : forall t', previous_stack_ t' = Some p -> next_stack_ t' = Some n ->
            AddrIsInStack sp addr t' =
            Ok (in_range (if in_range (stacks_get (stacks_ t') p) sp
                          then stacks_get (stacks_ t') p
                          else stacks_get (stacks_ t') n) addr)).
  { intros t' Hp' Hn'. unfold AddrIsInStack.
    rewrite (CurrentStack_eq t' sp p Hp'), Hn'. cbn.
    destruct (in_range _ sp); reflexivity. }
  pose proof (HA t Hp Hn) as Ht. fold P N in Ht.
  repeat split.
  - rewrite Ht. intros H. now inversion H.
  - rewrite Ht. intros H. now rewrite H.
  - rewrite Ht. intros H. now inversion H.
  - rewrite Ht. intros H. now rewrite H.
  - rewrite Ht. intros H. inversion H as [H'].
    destruct (in_range P sp); rewrite H'; auto.
  - intros m d Hm Hmp Hmn.
    rewrite (HA (with_stacks (stacks_set (stacks_ t) m d) t) Hp Hn), Ht.
    cbn [stacks_ with_stacks].
    rewrite !stacks_get_set_ne by assumption. reflexivity.
Qed.

Lemma AddrIsInStack_current_witness :
  AddrIsInStack 150 350 two_stacks = Ok false /\
  AddrIsInStack 350 350 two_stacks = Ok true.
Proof.
  pose proof (AddrIsInStack_current two_stacks 150 350 Slot0 Slot1
                eq_refl eq_refl) as (_ & H1 & _).
  pose proof (AddrIsInStack_current two_stacks 350 350 Slot0 Slot1
                eq_refl eq_refl) as (H2 & _).
  split; [apply H1 | apply H2]; reflexivity.
Defined.

(** ** The size equation *)

Lemma user_desc_valid base size :
  Uptr.is_uptr base -> Uptr.is_uptr size -> desc_valid (user_desc base size).
Proof.
  intros Hb Hs. repeat split; cbn; try apply Hb; try apply Hs;
    try apply UptrFacts.wrap_range.
  unfold desc_consistent. cbn. symmetry. now apply UptrFacts.sub_add_cancel.
Qed.

Lemma user_desc_exact base size :
  0 <= base -> 0 <= size -> base + size < Uptr.modulus ->
  stack_size (user_desc base size) =
    stack_top (user_desc base size) - stack_bottom (user_desc base size).
Proof.
  intros Hb Hs Hlt. cbn. unfold Uptr.add, Uptr.wrap.
  rewrite Z.mod_small by lia. lia.
Qed.







(** ** The role pointers *)

Lemma roles_distinct_cover t : roles_distinct t -> roles_cover t.
Proof.
  intros (p & n & m & Hp & Hn & Hm & Hpn & Hpm & Hnm) i.
  rewrite Hp, Hn, Hm.
  destruct p, n, m, i; try congruence; auto.
Qed.

Lemma roles_distinctb_spec t : roles_distinctb t = true <-> roles_distinct t.
Proof.
  unfold roles_distinctb, roles_distinct. split.
  - destruct (previous_stack_ t) as [p|], (next_stack_ t) as [n|],
      (temp_stack_ t) as [m|]; try discriminate.
    intros H. exists p, n, m.
    destruct p, n, m; try discriminate H; repeat split; congruence.
  - intros (p & n & m & -> & -> & -> & Hpn & Hpm & Hnm).
    destruct p, n, m; try congruence; reflexivity.
Qed.

Lemma rotated_roles_distinct t m d :
  temp_stack_ t = Some m -> roles_distinct t -> roles_distinct (rotated m d t).
Proof.
  intros Hm (p & n & m' & Hp & Hn & Hm' & Hpn & Hpm & Hnm).
  assert (m' = m) by congruence. subst m'.
  exists n, m, p. cbn. repeat split; auto.
Qed.

Lemma run_op_roles_distinct o t :
  roles_distinct t ->
  exists t', run_op o t = Ok t' /\ roles_distinct t' /\
             previous_stack_ t' = next_stack_ t /\
             next_stack_ t' = temp_stack_ t /\
             temp_stack_ t' = previous_stack_ t.
Proof.
  intros Hd. pose proof Hd as (p & n & m & Hp & Hn & Hm & _).
  destruct o as [base size|]; cbn.
  - rewrite (SetUserStack_rotated t m base size Hm).
    eexists; split; [reflexivity|].
    split; [now apply rotated_roles_distinct|]. cbn. now rewrite Hm.
  - rewrite (RestorePreviousUserStack_rotated t p m Hp Hm).
    eexists; split; [reflexivity|].
    split; [now apply rotated_roles_distinct|]. cbn. now rewrite Hm.
Qed.

(** C10.  On a thread whose three role pointers designate three different
    elements of [stacks_], every sequence of [SetUserStack] and
    [RestorePreviousUserStack] calls runs to completion and leaves the three
    role pointers designating three different elements, which between them
    are all of [stacks_[0..2]]; one call moves next's element to previous,
    temp's to next and previous's to temp. *)
Theorem roles_stay_distinct (os : list stack_op) (t : AsanThread) :
  roles_distinct t ->
  (exists t', run_ops os t = Ok t' /\ roles_distinct t' /\ roles_cover t') /\
  (forall o, exists t1,
     run_op o t = Ok t1 /\
     previous_stack_ t1 = next_stack_ t /\
     next_stack_ t1 = temp_stack_ t /\
     temp_stack_ t1 = previous_stack_ t).
Proof.
  intros Hd. split.
  - revert t Hd. induction os as [|o os IH]; intros t Hd.
    + exists t. repeat split; [assumption | now apply roles_distinct_cover].
    + destruct (run_op_roles_distinct o t Hd) as (t1 & E1 & Hd1 & _).
      destruct (IH t1 Hd1) as (t2 & E2 & Hd2 & Hc2).
      exists t2. cbn. rewrite E1. cbn. now repeat split.
  - intros o.
    destruct (run_op_roles_distinct o t Hd) as (t1 & E1 & _ & H).
    now exists t1.
Qed.

Lemma roles_stay_distinct_witness :
  exists t',
    run_ops [OpSetUserStack 4096 4096; OpRestorePreviousUserStack;
             OpSetUserStack 8192 64] two_stacks = Ok t' /\
    roles_distinct t' /\ roles_cover t'.
Proof.
  apply (roles_stay_distinct
           [OpSetUserStack 4096 4096; OpRestorePreviousUserStack;
            OpSetUserStack 8192 64] two_stacks).
  apply roles_distinctb_spec. reflexivity.
Defined.

(** ** An excursion to a user stack and back *)

Lemma excursion_eq t p n m base size :
  previous_stack_ t = Some p -> next_stack_ t = Some n ->
  temp_stack_ t = Some m -> m <> n ->
  let N := stacks_get (stacks_ t) n in
  excursion base size t =
    Ok (rotated p (user_desc (stack_bottom N) (stack_size N))
          (rotated m (user_desc base size) t)).
Proof.
  intros Hp Hn Hm Hmn N. unfold excursion.
  rewrite (SetUserStack_rotated t m base size Hm). cbn [bind].
  rewrite (RestorePreviousUserStack_rotated _ n p); cbn; try assumption.
  rewrite stacks_get_set_ne by assumption. reflexivity.
Qed.

Lemma valid_desc_rebuilt d :
  desc_valid d -> user_desc (stack_bottom d) (stack_size d) = d.
Proof.
  intros [(Ht & Hb & Hs) Hc]. destruct d as [top bottom size].
  unfold desc_consistent in Hc. cbn in *. unfold user_desc. f_equal.
  rewrite Hc. now apply UptrFacts.add_sub_cancel.
Qed.

(** C2, as claimed, fails.  On a thread whose previous is [100, 200) and whose
    next is [300, 400): a caller standing at 150 has [100, 200) current, and
    after [SetUserStack(0x1000, 0x1000)] and [RestorePreviousUserStack()]
    finds [300, 400); a caller standing at 350 has [300, 400) current, and
    after [SetUserStack(256, 256)] and [RestorePreviousUserStack()] finds the
    user range [256, 512), which contains 350. *)
Lemma excursion_not_always_restoring :
  (current_desc 150 two_stacks = Ok (mkDesc 200 100 100) /\
   (let! t' := excursion 4096 4096 two_stacks in current_desc 150 t')
     = Ok (mkDesc 400 300 100)) /\
  (current_desc 350 two_stacks = Ok (mkDesc 400 300 100) /\
   (let! t' := excursion 256 256 two_stacks in current_desc 350 t')
     = Ok (mkDesc 512 256 256)).
Proof. repeat split; reflexivity. Qed.

(** C2, amended.  Let the three role pointers designate different elements,
    let next's descriptor be the one current for the caller (the caller's
    stack address lies outside previous's range, or previous holds the same
    bounds), let that descriptor satisfy
    [stack_size == stack_top - stack_bottom], and let [base, base + size) not
    contain the caller's stack address.  Then after [SetUserStack(base, size)]
    and [RestorePreviousUserStack()] the descriptor [CurrentStack()] yields
    for that caller has the bounds that were current before the
    [SetUserStack] call, those of next two rotations earlier. *)
Theorem excursion_restores_current
    (t : AsanThread) (sp base size : Z) (p n m : slot) :
  previous_stack_ t = Some p -> next_stack_ t = Some n ->
  temp_stack_ t = Some m -> p <> m -> m <> n ->
  let N := stacks_get (stacks_ t) n in
  desc_valid N ->
  current_desc sp t = Ok N ->
  in_range (mkDesc (Uptr.add base size) base size) sp = false ->
  exists t',
    excursion base size t = Ok t' /\
    current_desc sp t' = current_desc sp t /\
    current_desc sp t' = Ok N.
Proof.
  intros Hp Hn Hm Hpm Hmn N Hv Hcur HU.
  rewrite (excursion_eq t p n m base size Hp Hn Hm Hmn). fold N.
  eexists; split; [reflexivity|].
  rewrite Hcur.
  cut (current_desc sp
         (rotated p (user_desc (stack_bottom N) (stack_size N))
            (rotated m (user_desc base size) t)) = Ok N); [now split|].
  rewrite (current_desc_eq _ sp m p); [|reflexivity|reflexivity].
  cbn [stacks_ rotated].
  rewrite stacks_get_set_ne by assumption.
  rewrite !stacks_get_set_eq. unfold user_desc at 1 2. rewrite HU.
  now rewrite valid_desc_rebuilt.
Qed.

Lemma excursion_restores_current_witness :
  exists t', excursion 4096 4096 two_stacks = Ok t' /\
             current_desc 350 t' = current_desc 350 two_stacks /\
             current_desc 350 t' = Ok (mkDesc 400 300 100).
Proof.
  apply (excursion_restores_current two_stacks 350 4096 4096 Slot0 Slot1 Slot2);
    try reflexivity; try discriminate.
  repeat split; cbn; try discriminate.
Defined.

(** ** What a signal handler can observe during the rotation *)





(** Without the separation of the temp element the handler can read a torn
    descriptor: here temp and next share element 1, and after the first
    store the next descriptor has the new bottom under the old top. *)
Example torn_when_temp_aliases_next :
  let t := thread_of (stacks_ two_stacks) (Some Slot1) (Some Slot1) (Some Slot0) in
  (let! tk := interrupted_at 1 4096 4096 t in committed_view tk)
    = Ok (mkDesc 200 100 100, mkDesc 400 4096 100).
Proof. reflexivity. Qed.

(** ** The fake stack *)

Lemma fake_stack_disabled lazy w :
  detect_stack_use_after_return w = 0 -> fake_stack lazy w = (0, w).
Proof. intros H. unfold fake_stack. now rewrite H. Qed.

(** C4.  With [__asan_option_detect_stack_use_after_return] false, every call
    of [fake_stack()] returns [nullptr], whatever [fake_stack_] holds and
    however often it is called, and leaves the thread, the thread-local slot
    and the record of calls into the fake-stack collaborator as they were: the
    lazy initialiser is not run and nothing is constructed. *)
Theorem fake_stack_disabled_none
    (lazy : world -> Z * world) (n : nat) (w : world) :
  detect_stack_use_after_return w = 0 ->
  fake_stack lazy w = (0, w) /\
  fake_stack_calls lazy n w = (repeat 0 n, w).
Proof.
  intros H. split; [now apply fake_stack_disabled|].
  induction n as [|n IH]; cbn; [reflexivity|].
  rewrite (fake_stack_disabled lazy w H), IH. reflexivity.
Qed.

Lemma fake_stack_disabled_none_witness :
  fake_stack sample_lazy_init disabled_world = (0, disabled_world) /\
  fake_stack_calls sample_lazy_init 3 disabled_world = ([0; 0; 0], disabled_world).
Proof.
  apply (fake_stack_disabled_none sample_lazy_init 3 disabled_world).
  reflexivity.
Defined.

(** With the option on, the same accessor does construct. *)
Example fake_stack_enabled_constructs :
  let w := mkWorld two_stacks 0 1 [] in
  fst (fake_stack sample_lazy_init w) = 4096 /\
  calls (snd (fake_stack sample_lazy_init w))
    = [CallCreate; CallSetTLSFakeStack 4096].
Proof. split; reflexivity. Qed.

Lemma DeleteFakeStack_with_null destroy tid w :
  fake_stack_ (self w) = 0 -> DeleteFakeStack_with destroy tid w = w.
Proof. intros H. unfold DeleteFakeStack_with. now rewrite H. Qed.

Lemma DeleteFakeStack_with_live destroy tid w :
  fake_stack_ (self w) <> 0 ->
  DeleteFakeStack_with destroy tid w =
    destroy (fake_stack_ (self w)) tid
      (SetTLSFakeStack 0 (with_self (with_fake_stack 0 (self w)) w)).
Proof.
  intros H. unfold DeleteFakeStack_with.
  apply Z.eqb_neq in H. now rewrite H.
Qed.




(** A live fake stack at 4096, torn down twice. *)
Example DeleteFakeStack_twice :
  let w := mkWorld (with_fake_stack 4096 two_stacks) 4096 1 [] in
  calls (DeleteFakeStack 7 w) = [CallSetTLSFakeStack 0; CallDestroy 4096 7] /\
  DeleteFakeStack 7 (DeleteFakeStack 7 w) = DeleteFakeStack 7 w.
Proof. split; reflexivity. Qed.

(** ** The zero-initialised object *)

(** C8.  In the all-zero [AsanThread], [has_fake_stack()] is false,
    [DeleteFakeStack] does nothing and both flags read false; but the three
    role pointers are null, so [CurrentStack()], and with it [stack_top()],
    [stack_bottom()], [stack_size()] and [AddrIsInStack(addr)], dereference
    [nullptr], as do [SetUserStack] and [RestorePreviousUserStack]. *)
Theorem zero_thread_stack_accessors_fault
    (sp addr base size tid tls flag : Z) (cs : list call) :
  has_fake_stack zero_thread = false /\
  DeleteFakeStack tid (mkWorld zero_thread tls flag cs)
    = mkWorld zero_thread tls flag cs /\
  isUnwinding zero_thread = false /\
  isInDeadlySignal zero_thread = false /\
  tls_begin zero_thread = 0 /\ tls_end zero_thread = 0 /\
  CurrentStack sp zero_thread = Fault NullDeref /\
  get_stack_top sp zero_thread = Fault NullDeref /\
  get_stack_bottom sp zero_thread = Fault NullDeref /\
  get_stack_size sp zero_thread = Fault NullDeref /\
  AddrIsInStack sp addr zero_thread = Fault NullDeref /\
  SetUserStack base size zero_thread = Fault NullDeref /\
  RestorePreviousUserStack zero_thread = Fault NullDeref.
Proof. repeat split; reflexivity. Qed.

(** ** The scoped guards *)

Lemma call_member_live (h : gmap nat AsanThread) l t m :
  h !! l = Some t -> call_member (Some l) m h = Ok (<[l := m t]> h).
Proof. intros H. unfold call_member. now rewrite H. Qed.

(** Entering and leaving [ScopedDeadlySignal] with a null thread does
    nothing. *)
Lemma ScopedDeadlySignal_null (h h' : gmap nat AsanThread) :
  ScopedDeadlySignal_enter None h = Ok (mkScopedDeadlySignal None, h) /\
  ScopedDeadlySignal_exit (mkScopedDeadlySignal None) h' = Ok h'.
Proof. split; reflexivity. Qed.

(** On a live thread both guards set their flag on entry and clear it on
    exit. *)
Lemma ScopedUnwinding_live (h : gmap nat AsanThread) l t :
  h !! l = Some t ->
  exists g h1,
    ScopedUnwinding_enter (Some l) h = Ok (g, h1) /\
    isUnwinding <$> (h1 !! l) = Some true /\
    exists h2, ScopedUnwinding_exit g h1 = Ok h2 /\
               isUnwinding <$> (h2 !! l) = Some false.
Proof.
  intros H. unfold ScopedUnwinding_enter, ScopedUnwinding_exit.
  rewrite (call_member_live h l t _ H). cbn [bind].
  do 2 eexists. split; [reflexivity|].
  rewrite lookup_insert_eq. split; [reflexivity|]. cbn [su_thread].
  erewrite call_member_live by apply lookup_insert_eq.
  eexists. split; [reflexivity|]. now rewrite lookup_insert_eq.
Qed.

Lemma ScopedDeadlySignal_live (h : gmap nat AsanThread) l t :
  h !! l = Some t ->
  exists g h1,
    ScopedDeadlySignal_enter (Some l) h = Ok (g, h1) /\
    isInDeadlySignal <$> (h1 !! l) = Some true /\
    exists h2, ScopedDeadlySignal_exit g h1 = Ok h2 /\
               isInDeadlySignal <$> (h2 !! l) = Some false.
Proof.
  intros H. unfold ScopedDeadlySignal_enter, ScopedDeadlySignal_exit.
  cbn [sd_thread].
  rewrite (call_member_live h l t _ H). cbn [bind].
  do 2 eexists. split; [reflexivity|].
  rewrite lookup_insert_eq. split; [reflexivity|]. cbn [sd_thread].
  erewrite call_member_live by apply lookup_insert_eq.
  eexists. split; [reflexivity|]. now rewrite lookup_insert_eq.
Qed.

(** C3.  With a null thread [ScopedDeadlySignal] does nothing on entry and on
    exit, and a scope under it runs its body on the unchanged heap; but
    [ScopedUnwinding] calls [setUnwinding] through the null pointer, in its
    constructor and again in its destructor, and a scope under it faults
    before the body runs. *)
Theorem ScopedUnwinding_null_faults
    (h : gmap nat AsanThread)
    (body : gmap nat AsanThread -> result (gmap nat AsanThread)) :
  ScopedDeadlySignal_enter None h = Ok (mkScopedDeadlySignal None, h) /\
  ScopedDeadlySignal_exit (mkScopedDeadlySignal None) h = Ok h /\
  deadly_signal_scope None body h = body h /\
  ScopedUnwinding_enter None h = Fault NullDeref /\
  ScopedUnwinding_exit (mkScopedUnwinding None) h = Fault NullDeref /\
  unwinding_scope None body h = Fault NullDeref.
Proof.
  repeat split; try reflexivity.
  unfold deadly_signal_scope. cbn. destruct (body h); reflexivity.
Qed.

(** * Further properties of the header *)

(** ** Thread identifiers *)

(** X1.  [kInvalidTid] fits into 24 bits, as its comment requires, and no
    thread identifier below [kMaxNumberOfThreads] is [kInvalidTid]. *)
Theorem kInvalidTid_not_a_tid (tid : Z) :
  0 <= tid < kMaxNumberOfThreads ->
  tid <> kInvalidTid /\ tid < kInvalidTid /\
  0 <= kInvalidTid < 2 ^ 24 /\ kMaxNumberOfThreads = 2 ^ 22.
Proof.
  unfold kMaxNumberOfThreads, kInvalidTid.
  change (Z.shiftl 1 22) with 4194304.
  change (2 ^ 24) with 16777216. change (2 ^ 22) with 4194304.
  lia.
Qed.

Lemma kInvalidTid_not_a_tid_witness :
  4194303 <> kInvalidTid /\ 4194303 < kInvalidTid /\
  0 <= kInvalidTid < 2 ^ 24 /\ kMaxNumberOfThreads = 2 ^ 22.
Proof.
  apply (kInvalidTid_not_a_tid 4194303).
  split; [discriminate | reflexivity].
Defined.

(** ** Faults of the stack members *)

Lemma CurrentStack_null_previous sp t :
  previous_stack_ t = None -> CurrentStack sp t = Fault NullDeref.
Proof. intros H. unfold CurrentStack, AddrIsInStack_in. now rewrite H. Qed.

(** X2.  The stack members fault only through a null role pointer, and then
    with a null dereference: [SetUserStack] exactly when [temp_stack_] is
    null, [RestorePreviousUserStack] exactly when [previous_stack_] or
    [temp_stack_] is null, [CurrentStack] exactly when [previous_stack_] is
    null.  [CurrentStack] hands back a null [next_stack_] without touching it
    when the caller is outside previous's range, and [AddrIsInStack] and
    [stack_top] fault exactly when [CurrentStack] faults or returns null. *)
Theorem stack_members_fault_on_null (t : AsanThread) (sp addr base size : Z) :
  (SetUserStack base size t = Fault NullDeref <-> temp_stack_ t = None) /\
  (RestorePreviousUserStack t = Fault NullDeref <->
     previous_stack_ t = None \/ temp_stack_ t = None) /\
  (CurrentStack sp t = Fault NullDeref <-> previous_stack_ t = None) /\
  (CurrentStack sp t = Ok None <->
     exists p, previous_stack_ t = Some p /\
               in_range (stacks_get (stacks_ t) p) sp = false /\
               next_stack_ t = None) /\
  (AddrIsInStack sp addr t = Fault NullDeref <->
     CurrentStack sp t = Fault NullDeref \/ CurrentStack sp t = Ok None) /\
  (get_stack_top sp t = Fault NullDeref <->
     CurrentStack sp t = Fault NullDeref \/ CurrentStack sp t = Ok None) /\
  SetUserStack base size t <> Fault WildDeref /\
  RestorePreviousUserStack t <> Fault WildDeref /\
  AddrIsInStack sp addr t <> Fault WildDeref.
Proof.
  destruct t as [a tmp nxt prv tb te fs u ds].
  unfold RestorePreviousUserStack, AddrIsInStack, get_stack_top,
    CurrentStack, AddrIsInStack_in.
  destruct prv as [p|], tmp as [m|], nxt as [n|]; cbn;
    try destruct (in_range (stacks_get a p) sp) eqn:E; cbn;
    repeat split; try discriminate; try congruence; auto;
    try (intros [H|H]; discriminate H);
    try (intros (q & H1 & H2 & H3); congruence);
    try (intros _; exists p; repeat split; congruence);
    try (destruct m; discriminate).
Qed.

(** ** The rotation of the role pointers *)

Lemma run_op_rotates o t :
  roles_set t ->
  exists t', run_op o t = Ok t' /\ roles_set t' /\
             roles_of t' = rotate_roles (roles_of t).
Proof.
  intros (Hp & Hn & Hm).
  destruct (previous_stack_ t) as [p|] eqn:Ep; [|contradiction].
  destruct (next_stack_ t) as [n|] eqn:En; [|contradiction].
  destruct (temp_stack_ t) as [m|] eqn:Em; [|contradiction].
  destruct o as [base size|]; cbn [run_op].
  - rewrite (SetUserStack_rotated t m base size Em).
    eexists; split; [reflexivity|]. unfold roles_set, roles_of. cbn.
    rewrite Ep, En, ?Em. repeat split; discriminate || reflexivity.
  - rewrite (RestorePreviousUserStack_rotated t p m Ep Em).
    eexists; split; [reflexivity|]. unfold roles_set, roles_of. cbn.
    rewrite Ep, En, ?Em. repeat split; discriminate || reflexivity.
Qed.

Lemma run_ops_rotates os :
  forall t, roles_set t ->
  exists t', run_ops os t = Ok t' /\ roles_set t' /\
             roles_of t' = Nat.iter (length os) rotate_roles (roles_of t).
Proof.
  induction os as [|o os IH]; intros t Ht.
  - exists t. split; [reflexivity | split; [exact Ht | reflexivity]].
  - destruct (run_op_rotates o t Ht) as (t1 & E1 & Ht1 & R1).
    destruct (IH t1 Ht1) as (t2 & E2 & Ht2 & R2).
    exists t2. cbn [run_ops]. rewrite E1. cbn [bind].
    split; [exact E2|]. split; [exact Ht2|].
    rewrite R2, R1. cbn [length]. now rewrite Nat.iter_succ_r.
Qed.

Lemma rotate_roles_thrice r : rotate_roles (rotate_roles (rotate_roles r)) = r.
Proof. destruct r as [[p n] m]. reflexivity. Qed.

Lemma iter_rotate_roles_period k r :
  Nat.iter (3 * k) rotate_roles r = r.
Proof.
  induction k as [|k IH]; [reflexivity|].
  replace (3 * S k)%nat with (S (S (S (3 * k)))) by lia.
  cbn [Nat.iter nat_rect]. unfold Nat.iter in IH. rewrite IH.
  apply rotate_roles_thrice.
Qed.

(** X3.  On a thread with no null role pointer every sequence of
    [SetUserStack] and [RestorePreviousUserStack] calls completes, each call
    rotating the role assignment once; after a number of calls that is a
    multiple of three each role pointer designates the element it designated
    at the start. *)
Theorem roles_period_three (os : list stack_op) (k : nat) (t : AsanThread) :
  roles_set t ->
  length os = (3 * k)%nat ->
  exists t', run_ops os t = Ok t' /\
             previous_stack_ t' = previous_stack_ t /\
             next_stack_ t' = next_stack_ t /\
             temp_stack_ t' = temp_stack_ t.
Proof.
  intros Ht Hl.
  destruct (run_ops_rotates os t Ht) as (t' & E & _ & R).
  exists t'. split; [exact E|].
  rewrite Hl, iter_rotate_roles_period in R.
  unfold roles_of in R. inversion R. now repeat split.
Qed.

Lemma two_stacks_roles_set : roles_set two_stacks.
Proof. repeat split; discriminate. Qed.

Lemma roles_period_three_witness :
  exists t',
    run_ops [OpSetUserStack 4096 4096; OpRestorePreviousUserStack;
             OpSetUserStack 8192 64] two_stacks = Ok t' /\
    previous_stack_ t' = Some Slot0 /\
    next_stack_ t' = Some Slot1 /\
    temp_stack_ t' = Some Slot2.
Proof.
  apply (roles_period_three
           [OpSetUserStack 4096 4096; OpRestorePreviousUserStack;
            OpSetUserStack 8192 64] 1 two_stacks).
  - exact two_stacks_roles_set.
  - reflexivity.
Defined.

(** ** What the stack members leave alone *)

Lemma rotated_frame m d t :
  tls_begin_ (rotated m d t) = tls_begin_ t /\
  tls_end_ (rotated m d t) = tls_end_ t /\
  fake_stack_ (rotated m d t) = fake_stack_ t /\
  unwinding_ (rotated m d t) = unwinding_ t /\
  in_deadly_signal_ (rotated m d t) = in_deadly_signal_ t.
Proof. repeat split. Qed.

Lemma run_op_Ok_rotated o t t' :
  run_op o t = Ok t' ->
  exists m d, temp_stack_ t = Some m /\ t' = rotated m d t.
Proof.
  destruct (temp_stack_ t) as [m|] eqn:Em.
  - destruct o as [base size|]; cbn [run_op].
    + rewrite (SetUserStack_rotated t m base size Em). intros H.
      inversion H. eauto.
    + unfold RestorePreviousUserStack.
      destruct (load (previous_stack_ t) t) as [d|f]; cbn [bind];
        [|discriminate].
      rewrite (SetUserStack_rotated t m _ _ Em). intros H.
      inversion H. eauto.
  - destruct o as [base size|]; cbn [run_op].
    + now rewrite (SetUserStack_null_temp t base size Em).
    + unfold RestorePreviousUserStack.
      destruct (load (previous_stack_ t) t) as [d|f]; cbn [bind];
        [|discriminate].
      now rewrite (SetUserStack_null_temp t _ _ Em).
Qed.

(** X4.  A [SetUserStack] or [RestorePreviousUserStack] call that completes
    writes no element of [stacks_] other than the one in the temp role, and
    no sequence of such calls changes the TLS bounds, [fake_stack_] or either
    flag. *)
Theorem stack_ops_frame (os : list stack_op) (t t' : AsanThread) :
  run_ops os t = Ok t' ->
  (tls_begin t' = tls_begin t /\ tls_end t' = tls_end t /\
   fake_stack_ t' = fake_stack_ t /\ has_fake_stack t' = has_fake_stack t /\
   isUnwinding t' = isUnwinding t /\
   isInDeadlySignal t' = isInDeadlySignal t) /\
  (forall o m i, os = [o] -> temp_stack_ t = Some m -> i <> m ->
     stacks_get (stacks_ t') i = stacks_get (stacks_ t) i).
Proof.
  intros H. split.
  - revert t H. induction os as [|o os IH]; intros t H; cbn [run_ops] in H.
    + inversion H. now repeat split.
    + destruct (run_op o t) as [t1|f] eqn:E1; cbn [bind] in H; [|discriminate].
      destruct (run_op_Ok_rotated o t t1 E1) as (m & d & _ & ->).
      destruct (IH _ H) as (H1 & H2 & H3 & H4 & H5 & H6).
      unfold tls_begin, tls_end, has_fake_stack, isUnwinding,
        isInDeadlySignal in *.
      cbn in H1, H2, H3, H4, H5, H6. now repeat split.
  - intros o m i -> Hm Hi. cbn [run_ops] in H.
    destruct (run_op o t) as [t1|f] eqn:E1; cbn [bind] in H; [|discriminate].
    inversion H; subst t1.
    destruct (run_op_Ok_rotated o t t' E1) as (m' & d & Hm' & ->).
    assert (m' = m) by congruence. subst m'. cbn.
    apply stacks_get_set_ne. congruence.
Qed.

Lemma stack_ops_frame_witness :
  let t' := rotated Slot2 (user_desc 4096 4096) two_stacks in
  run_ops [OpSetUserStack 4096 4096] two_stacks = Ok t' /\
  fake_stack_ t' = 0 /\ stacks_get (stacks_ t') Slot0 = mkDesc 200 100 100.
Proof.
  intros t'.
  destruct (stack_ops_frame [OpSetUserStack 4096 4096] two_stacks t' eq_refl)
    as ((_ & _ & H3 & _) & H7).
  split; [reflexivity|]. split; [exact H3|].
  apply (H7 (OpSetUserStack 4096 4096) Slot2 Slot0);
    [reflexivity | reflexivity | discriminate].
Defined.

(** ** Who sees which stack after a change *)

Lemma in_range_spec d addr :
  in_range d addr = true <-> stack_bottom d <= addr < stack_top d.
Proof.
  unfold in_range. rewrite andb_true_iff, Z.leb_le, Z.ltb_lt. reflexivity.
Qed.

Lemma user_desc_in_range base size addr :
  Uptr.is_uptr base -> Uptr.is_uptr size ->
  (in_range (user_desc base size) addr = true <->
   base <= addr < base + size /\ base + size < Uptr.modulus).
Proof.
  unfold Uptr.is_uptr. intros Hb Hs. rewrite in_range_spec. cbn.
  unfold Uptr.add, Uptr.wrap.
  destruct (Z_lt_dec (base + size) Uptr.modulus) as [Hlt|Hge].
  - rewrite Z.mod_small by lia. lia.
  - replace ((base + size) mod Uptr.modulus)
      with (base + size - Uptr.modulus).
    + lia.
    + apply Z.mod_unique with (q := 1); lia.
Qed.

(** X5.  After [SetUserStack(base, size)], on a thread whose temp element is
    not next's, a caller whose stack address lies in the range of the
    descriptor that was next still has that descriptor as its current one,
    and every other caller has the new descriptor: top, bottom, size and the
    membership test follow. *)
Theorem SetUserStack_observers
    (t : AsanThread) (base size : Z) (n m : slot) :
  next_stack_ t = Some n -> temp_stack_ t = Some m -> m <> n ->
  let N := stacks_get (stacks_ t) n in
  let U := mkDesc (Uptr.add base size) base size in
  exists t',
    SetUserStack base size t = Ok t' /\
    forall sp,
      let D := if in_range N sp then N else U in
      current_desc sp t' = Ok D /\
      get_stack_top sp t' = Ok (stack_top D) /\
      get_stack_bottom sp t' = Ok (stack_bottom D) /\
      get_stack_size sp t' = Ok (stack_size D) /\
      forall addr, AddrIsInStack sp addr t' = Ok (in_range D addr).
Proof.
  intros Hn Hm Hmn N U.
  rewrite (SetUserStack_rotated t m base size Hm).
  eexists; split; [reflexivity|]. intros sp D.
  set (t' := rotated m (user_desc base size) t).
  assert (Hp' : previous_stack_ t' = Some n) by (cbn; exact Hn).
  assert (Hn' : next_stack_ t' = Some m) by reflexivity.
  assert (HN : stacks_get (stacks_ t') n = N)
    by (cbn; now rewrite stacks_get_set_ne).
  assert (HU : stacks_get (stacks_ t') m = U)
    by (cbn; now rewrite stacks_get_set_eq).
  assert (HC : CurrentStack sp t' = Ok (Some (if in_range N sp then n else m))).
  { rewrite (CurrentStack_eq t' sp n Hp'), HN, Hn'.
    destruct (in_range N sp); reflexivity. }
  assert (HD : stacks_get (stacks_ t') (if in_range N sp then n else m) = D).
  { unfold D. destruct (in_range N sp); assumption. }
  unfold current_desc, get_stack_top, get_stack_bottom, get_stack_size,
    AddrIsInStack, AddrIsInStack_in.
  rewrite HC. cbn [bind load]. rewrite HD. now repeat split.
Qed.

Lemma SetUserStack_observers_witness :
  exists t',
    SetUserStack 4096 4096 two_stacks = Ok t' /\
    forall sp,
      let D := if in_range (mkDesc 400 300 100) sp
               then mkDesc 400 300 100
               else mkDesc (Uptr.add 4096 4096) 4096 4096 in
      current_desc sp t' = Ok D /\
      get_stack_top sp t' = Ok (stack_top D) /\
      get_stack_bottom sp t' = Ok (stack_bottom D) /\
      get_stack_size sp t' = Ok (stack_size D) /\
      forall addr, AddrIsInStack sp addr t' = Ok (in_range D addr).
Proof.
  apply (SetUserStack_observers two_stacks 4096 4096 Slot1 Slot2);
    [reflexivity | reflexivity | discriminate].
Defined.

(** X6.  The range [SetUserStack(base, size)] installs contains [addr]
    exactly when [base <= addr < base + size] and [base + size] does not
    overflow [uptr]: a zero size, or a range reaching the end of the address
    space, installs a descriptor that contains no address. *)
Theorem SetUserStack_installed_range
    (t : AsanThread) (base size : Z) (m : slot) :
  Uptr.is_uptr base -> Uptr.is_uptr size ->
  temp_stack_ t = Some m ->
  exists t',
    SetUserStack base size t = Ok t' /\
    forall addr, exists b,
      AddrIsInStack_in (next_stack_ t') addr t' = Ok b /\
      (b = true <-> base <= addr < base + size /\ base + size < Uptr.modulus).
Proof.
  intros Hb Hs Hm.
  rewrite (SetUserStack_rotated t m base size Hm).
  eexists; split; [reflexivity|]. intros addr.
  exists (in_range (user_desc base size) addr). split.
  - unfold AddrIsInStack_in. cbn. now rewrite stacks_get_set_eq.
  - now apply user_desc_in_range.
Qed.

Lemma SetUserStack_installed_range_witness :
  exists t',
    SetUserStack (Uptr.modulus - 4096) 4096 two_stacks = Ok t' /\
    forall addr, exists b,
      AddrIsInStack_in (next_stack_ t') addr t' = Ok b /\
      (b = true <->
       Uptr.modulus - 4096 <= addr < Uptr.modulus - 4096 + 4096 /\
       Uptr.modulus - 4096 + 4096 < Uptr.modulus).
Proof.
  apply (SetUserStack_installed_range two_stacks (Uptr.modulus - 4096) 4096 Slot2).
  - split; [discriminate | reflexivity].
  - split; [discriminate | reflexivity].
  - reflexivity.
Defined.

(** ** How the stack changes compose *)

Lemma committed_view_eq t p n :
  previous_stack_ t = Some p -> next_stack_ t = Some n ->
  committed_view t = Ok (stacks_get (stacks_ t) p, stacks_get (stacks_ t) n).
Proof. intros Hp Hn. unfold committed_view. now rewrite Hp, Hn. Qed.

(** X7.  On a thread whose temp element is neither previous's nor next's
    and whose committed descriptors satisfy the size equation,
    [RestorePreviousUserStack()] exchanges the bounds read through
    [previous_stack_] and [next_stack_], and a second call exchanges them
    back. *)
Theorem RestorePreviousUserStack_swaps (t : AsanThread) (p n m : slot) :
  previous_stack_ t = Some p -> next_stack_ t = Some n ->
  temp_stack_ t = Some m -> m <> p -> m <> n ->
  let A := stacks_get (stacks_ t) p in
  let B := stacks_get (stacks_ t) n in
  desc_valid A -> desc_valid B ->
  committed_view t = Ok (A, B) /\
  exists t1 t2,
    RestorePreviousUserStack t = Ok t1 /\ committed_view t1 = Ok (B, A) /\
    RestorePreviousUserStack t1 = Ok t2 /\ committed_view t2 = Ok (A, B).
Proof.
  intros Hp Hn Hm Hmp Hmn A B HA HB.
  split; [now apply committed_view_eq|].
  rewrite (RestorePreviousUserStack_rotated t p m Hp Hm). fold A.
  rewrite (valid_desc_rebuilt A HA).
  set (t1 := rotated m A t).
  assert (Hp1 : previous_stack_ t1 = Some n) by (cbn; exact Hn).
  assert (Hn1 : next_stack_ t1 = Some m) by reflexivity.
  assert (Hm1 : temp_stack_ t1 = Some p) by (cbn; exact Hp).
  assert (HB1 : stacks_get (stacks_ t1) n = B)
    by (cbn; now rewrite stacks_get_set_ne).
  assert (HA1 : stacks_get (stacks_ t1) m = A)
    by (cbn; now rewrite stacks_get_set_eq).
  exists t1. eexists. split; [reflexivity|].
  split; [rewrite (committed_view_eq t1 n m Hp1 Hn1), HB1, HA1; reflexivity|].
  rewrite (RestorePreviousUserStack_rotated t1 n p Hp1 Hm1), HB1.
  rewrite (valid_desc_rebuilt B HB).
  split; [reflexivity|].
  rewrite (committed_view_eq _ m p); [|reflexivity|reflexivity].
  cbn [stacks_ rotated].
  rewrite stacks_get_set_eq.
  rewrite (stacks_get_set_ne _ p m) by congruence.
  fold t1. now rewrite HA1.
Qed.

Lemma RestorePreviousUserStack_swaps_witness :
  committed_view two_stacks = Ok (mkDesc 200 100 100, mkDesc 400 300 100) /\
  exists t1 t2,
    RestorePreviousUserStack two_stacks = Ok t1 /\
    committed_view t1 = Ok (mkDesc 400 300 100, mkDesc 200 100 100) /\
    RestorePreviousUserStack t1 = Ok t2 /\
    committed_view t2 = Ok (mkDesc 200 100 100, mkDesc 400 300 100).
Proof.
  apply (RestorePreviousUserStack_swaps two_stacks Slot0 Slot1 Slot2);
    try reflexivity; try discriminate.
  - repeat split; cbn; discriminate.
  - repeat split; cbn; discriminate.
Defined.

(** X8.  Two [SetUserStack] calls in a row leave both committed descriptors
    written by [SetUserStack], whatever the three elements held before: the
    first call's descriptor is read through [previous_stack_] and the second
    call's through [next_stack_], when the roles are on different elements,
    and both committed descriptors satisfy the size equation in any case. *)
Theorem two_SetUserStack_commit_both
    (t : AsanThread) (b1 s1 b2 s2 : Z) (p m : slot) :
  Uptr.is_uptr b1 -> Uptr.is_uptr s1 -> Uptr.is_uptr b2 -> Uptr.is_uptr s2 ->
  previous_stack_ t = Some p -> temp_stack_ t = Some m ->
  exists t2,
    run_ops [OpSetUserStack b1 s1; OpSetUserStack b2 s2] t = Ok t2 /\
    committed_valid t2 /\
    (p <> m ->
     committed_view t2
       = Ok (mkDesc (Uptr.add b1 s1) b1 s1, mkDesc (Uptr.add b2 s2) b2 s2)).
Proof.
  intros Hb1 Hs1 Hb2 Hs2 Hp Hm. cbn [run_ops run_op].
  rewrite (SetUserStack_rotated t m b1 s1 Hm). cbn [bind].
  rewrite (SetUserStack_rotated _ p b2 s2) by (cbn; exact Hp). cbn [bind].
  eexists; split; [reflexivity|].
  pose proof (user_desc_valid b1 s1 Hb1 Hs1) as V1.
  pose proof (user_desc_valid b2 s2 Hb2 Hs2) as V2.
  split.
  - eexists _, _. cbn.
    split; [reflexivity|]. split; [reflexivity|].
    rewrite stacks_get_set_eq. split; [|exact V2].
    destruct (decide (p = m)) as [->|Hne].
    + now rewrite stacks_get_set_eq.
    + rewrite stacks_get_set_ne by assumption. now rewrite stacks_get_set_eq.
  - intros Hne. rewrite (committed_view_eq _ m p); [|reflexivity|reflexivity].
    cbn. rewrite stacks_get_set_eq.
    rewrite stacks_get_set_ne by assumption. now rewrite stacks_get_set_eq.
Qed.

Lemma two_SetUserStack_commit_both_witness :
  exists t2,
    run_ops [OpSetUserStack 4096 4096; OpSetUserStack 8192 64] zero_thread_roles
      = Ok t2 /\
    committed_valid t2 /\
    (Slot0 <> Slot2 ->
     committed_view t2
       = Ok (mkDesc (Uptr.add 4096 4096) 4096 4096,
             mkDesc (Uptr.add 8192 64) 8192 64)).
Proof.
  apply (two_SetUserStack_commit_both zero_thread_roles 4096 4096 8192 64
           Slot0 Slot2);
    try reflexivity; split; discriminate || reflexivity.
Defined.

(** X9.  The rotation keeps one level of history.  After two nested
    changes, [SetUserStack(b1, s1)] then [SetUserStack(b2, s2)], undone by
    two [RestorePreviousUserStack()] calls, the committed descriptors are the
    two user ranges: the bounds that were committed before the first change
    are in neither committed role. *)
Theorem nested_excursions_forget_original
    (t : AsanThread) (b1 s1 b2 s2 : Z) (p n m : slot) :
  Uptr.is_uptr b1 -> Uptr.is_uptr s1 -> Uptr.is_uptr b2 -> Uptr.is_uptr s2 ->
  previous_stack_ t = Some p -> next_stack_ t = Some n ->
  temp_stack_ t = Some m -> p <> n -> p <> m -> n <> m ->
  exists t4,
    run_ops [OpSetUserStack b1 s1; OpSetUserStack b2 s2;
             OpRestorePreviousUserStack; OpRestorePreviousUserStack] t = Ok t4 /\
    committed_view t4
      = Ok (mkDesc (Uptr.add b1 s1) b1 s1, mkDesc (Uptr.add b2 s2) b2 s2) /\
    forall sp,
      current_desc sp t4 = Ok (mkDesc (Uptr.add b1 s1) b1 s1) \/
      current_desc sp t4 = Ok (mkDesc (Uptr.add b2 s2) b2 s2).
Proof.
  intros Hb1 Hs1 Hb2 Hs2 Hp Hn Hm Hpn Hpm Hnm.
  pose proof (valid_desc_rebuilt _ (user_desc_valid b1 s1 Hb1 Hs1)) as R1.
  pose proof (valid_desc_rebuilt _ (user_desc_valid b2 s2 Hb2 Hs2)) as R2.
  assert (HV : exists t4,
    run_ops [OpSetUserStack b1 s1; OpSetUserStack b2 s2;
             OpRestorePreviousUserStack; OpRestorePreviousUserStack] t = Ok t4 /\
    committed_view t4 = Ok (user_desc b1 s1, user_desc b2 s2)).
  { cbn [run_ops run_op].
    rewrite (SetUserStack_rotated t m b1 s1 Hm). cbn [bind].
    rewrite (SetUserStack_rotated _ p b2 s2) by (cbn; exact Hp). cbn [bind].
    rewrite (RestorePreviousUserStack_rotated _ m n);
      [|reflexivity | cbn; exact Hn].
    cbn [bind stacks_ rotated].
    rewrite (stacks_get_set_ne _ p m) by assumption.
    rewrite stacks_get_set_eq, R1.
    rewrite (RestorePreviousUserStack_rotated _ p m);
      [|reflexivity | reflexivity].
    cbn [bind stacks_ rotated].
    rewrite (stacks_get_set_ne _ n p) by congruence.
    rewrite stacks_get_set_eq, R2.
    eexists; split; [reflexivity|].
    rewrite (committed_view_eq _ n m); [|reflexivity|reflexivity].
    cbn [stacks_ rotated].
    rewrite stacks_get_set_eq.
    rewrite (stacks_get_set_ne _ m n) by congruence.
    now rewrite stacks_get_set_eq. }
  destruct HV as (t4 & E & V). exists t4.
  split; [exact E|]. split; [exact V|].
  intros sp. rewrite (current_desc_of_view t4 sp _ _ V).
  destruct (in_range (user_desc b1 s1) sp); [now left | now right].
Qed.

Lemma nested_excursions_forget_original_witness :
  exists t4,
    run_ops [OpSetUserStack 4096 4096; OpSetUserStack 8192 64;
             OpRestorePreviousUserStack; OpRestorePreviousUserStack] two_stacks
      = Ok t4 /\
    committed_view t4
      = Ok (mkDesc (Uptr.add 4096 4096) 4096 4096,
            mkDesc (Uptr.add 8192 64) 8192 64) /\
    forall sp,
      current_desc sp t4 = Ok (mkDesc (Uptr.add 4096 4096) 4096 4096) \/
      current_desc sp t4 = Ok (mkDesc (Uptr.add 8192 64) 8192 64).
Proof.
  apply (nested_excursions_forget_original two_stacks 4096 4096 8192 64
           Slot0 Slot1 Slot2);
    try reflexivity; try discriminate; split; discriminate || reflexivity.
Defined.

(** ** More on the fake stack *)

Lemma DeleteFakeStack_null tid w :
  fake_stack_ (self w) = 0 -> DeleteFakeStack tid w = w.
Proof. intros H. now apply DeleteFakeStack_with_null. Qed.

Lemma DeleteFakeStack_live tid w :
  fake_stack_ (self w) <> 0 ->
  DeleteFakeStack tid w =
    mkWorld (with_fake_stack 0 (self w)) 0 (detect_stack_use_after_return w)
            (calls w ++ [CallSetTLSFakeStack 0;
                         CallDestroy (fake_stack_ (self w)) tid]).
Proof.
  intros H. unfold DeleteFakeStack.
  rewrite DeleteFakeStack_with_live by assumption.
  unfold FakeStack_Destroy, SetTLSFakeStack, with_self. cbn.
  now rewrite <- app_assoc.
Qed.

Lemma DeleteFakeStack_clears tid w :
  fake_stack_ (self (DeleteFakeStack tid w)) = 0.
Proof.
  destruct (Z.eq_dec (fake_stack_ (self w)) 0) as [E|E].
  - now rewrite DeleteFakeStack_null.
  - now rewrite DeleteFakeStack_live.
Qed.

Lemma DeleteFakeStack_each_null tids :
  forall w, fake_stack_ (self w) = 0 -> DeleteFakeStack_each tids w = w.
Proof.
  induction tids as [|tid tids IH]; intros w H; [reflexivity|].
  cbn. rewrite (DeleteFakeStack_null tid w H). now apply IH.
Qed.

Lemma destroy_count_app cs cs' :
  destroy_count (cs ++ cs') = (destroy_count cs + destroy_count cs')%nat.
Proof. unfold destroy_count. now rewrite List.filter_app, length_app. Qed.

(** X10.  However many times [DeleteFakeStack] is called in a row, and with
    whatever tids, only the first call acts: the whole sequence is the first
    call, and it calls [Destroy] once, on the fake stack the thread had and
    with the first tid, when there was one, and not at all otherwise. *)
Theorem DeleteFakeStack_destroys_once (tid : Z) (tids : list Z) (w : world) :
  DeleteFakeStack_each (tid :: tids) w = DeleteFakeStack tid w /\
  calls (DeleteFakeStack_each (tid :: tids) w) =
    calls w ++ (if fake_stack_ (self w) =? 0 then []
                else [CallSetTLSFakeStack 0;
                      CallDestroy (fake_stack_ (self w)) tid]) /\
  destroy_count (calls (DeleteFakeStack_each (tid :: tids) w)) =
    (destroy_count (calls w)
     + (if (fake_stack_ (self w) =? 0)%Z then 0 else 1))%nat.
Proof.
  assert (E : DeleteFakeStack_each (tid :: tids) w = DeleteFakeStack tid w).
  { cbn. apply DeleteFakeStack_each_null, DeleteFakeStack_clears. }
  rewrite E. split; [reflexivity|].
  destruct (fake_stack_ (self w) =? 0) eqn:Z0.
  - apply Z.eqb_eq in Z0. rewrite (DeleteFakeStack_null tid w Z0).
    rewrite app_nil_r. split; [reflexivity | lia].
  - apply Z.eqb_neq in Z0. rewrite (DeleteFakeStack_live tid w Z0).
    cbn [calls]. split; [reflexivity|]. now rewrite destroy_count_app.
Qed.

(** X11.  [DeleteFakeStack] writes nothing but [fake_stack_] and the
    thread-local slot: the stack descriptors, the role pointers, the TLS
    bounds, both flags and the option are as before, so [CurrentStack] and
    [AddrIsInStack] answer as before. *)
Theorem DeleteFakeStack_frame (tid sp addr : Z) (w : world) :
  let w' := DeleteFakeStack tid w in
  stacks_ (self w') = stacks_ (self w) /\
  roles_of (self w') = roles_of (self w) /\
  tls_begin (self w') = tls_begin (self w) /\
  tls_end (self w') = tls_end (self w) /\
  isUnwinding (self w') = isUnwinding (self w) /\
  isInDeadlySignal (self w') = isInDeadlySignal (self w) /\
  detect_stack_use_after_return w' = detect_stack_use_after_return w /\
  CurrentStack sp (self w') = CurrentStack sp (self w) /\
  AddrIsInStack sp addr (self w') = AddrIsInStack sp addr (self w).
Proof.
  intros w'. subst w'.
  destruct (Z.eq_dec (fake_stack_ (self w)) 0) as [E|E].
  - rewrite (DeleteFakeStack_null tid w E). now repeat split.
  - rewrite (DeleteFakeStack_live tid w E). now repeat split.
Qed.

Lemma fake_stack_live lazy w :
  detect_stack_use_after_return w <> 0 ->
  has_fake_stack (self w) = true ->
  fake_stack lazy w = (fake_stack_ (self w), w).
Proof.
  intros Hf Hh. unfold fake_stack.
  apply Z.eqb_neq in Hf. now rewrite Hf, Hh.
Qed.

(** X12.  With the option on and a fake stack in place ([fake_stack_] above
    1), [fake_stack()] returns [fake_stack_] at every call, does not run the
    lazy initialiser and changes nothing. *)
Theorem fake_stack_live_returns_it
    (lazy : world -> Z * world) (n : nat) (w : world) :
  detect_stack_use_after_return w <> 0 ->
  1 < fake_stack_ (self w) ->
  fake_stack_calls lazy n w = (repeat (fake_stack_ (self w)) n, w).
Proof.
  intros Hf Hl.
  assert (Hh : has_fake_stack (self w) = true)
    by (unfold has_fake_stack; now apply Z.ltb_lt).
  induction n as [|n IH]; cbn; [reflexivity|].
  rewrite (fake_stack_live lazy w Hf Hh), IH. reflexivity.
Qed.

Lemma fake_stack_live_returns_it_witness :
  let w := mkWorld (with_fake_stack 4096 two_stacks) 4096 1 [] in
  fake_stack_calls sample_lazy_init 3 w = ([4096; 4096; 4096], w).
Proof.
  intros w.
  apply (fake_stack_live_returns_it sample_lazy_init 3 w);
    [discriminate | reflexivity].
Defined.

(** X13.  After [DeleteFakeStack], with the option on, the next
    [fake_stack()] goes to the lazy initialiser: the pointer that was torn
    down is not handed out again from [fake_stack_]. *)
Theorem fake_stack_after_teardown
    (lazy : world -> Z * world) (tid : Z) (w : world) :
  detect_stack_use_after_return w <> 0 ->
  fake_stack lazy (DeleteFakeStack tid w) = lazy (DeleteFakeStack tid w).
Proof.
  intros Hf. unfold fake_stack.
  assert (Hd : detect_stack_use_after_return (DeleteFakeStack tid w)
               = detect_stack_use_after_return w).
  { destruct (Z.eq_dec (fake_stack_ (self w)) 0) as [E|E].
    - now rewrite DeleteFakeStack_null.
    - now rewrite DeleteFakeStack_live. }
  rewrite Hd. apply Z.eqb_neq in Hf. rewrite Hf.
  unfold has_fake_stack. now rewrite DeleteFakeStack_clears.
Qed.

Lemma fake_stack_after_teardown_witness :
  let w := mkWorld (with_fake_stack 8192 two_stacks) 8192 1 [] in
  fake_stack sample_lazy_init (DeleteFakeStack 7 w)
    = sample_lazy_init (DeleteFakeStack 7 w) /\
  fst (fake_stack sample_lazy_init (DeleteFakeStack 7 w)) = 4096.
Proof.
  intros w. split; [|reflexivity].
  apply (fake_stack_after_teardown sample_lazy_init 7 w). discriminate.
Defined.

(** X14.  [has_fake_stack()] is false exactly for the values 0 and 1 of
    [fake_stack_], while [DeleteFakeStack] does nothing exactly for the
    value 0: whenever [has_fake_stack()] is true the teardown runs, and the
    two tests differ exactly at the value 1. *)
Theorem has_fake_stack_vs_teardown (tid : Z) (w : world) :
  Uptr.is_uptr (fake_stack_ (self w)) ->
  (has_fake_stack (self w) = false <->
     fake_stack_ (self w) = 0 \/ fake_stack_ (self w) = 1) /\
  (DeleteFakeStack tid w = w <-> fake_stack_ (self w) = 0) /\
  (has_fake_stack (self w) = true -> DeleteFakeStack tid w <> w) /\
  (has_fake_stack (self w) = false /\ DeleteFakeStack tid w <> w <->
     fake_stack_ (self w) = 1).
Proof.
  intros [Hlo _].
  assert (Hh : has_fake_stack (self w) = false <->
               fake_stack_ (self w) = 0 \/ fake_stack_ (self w) = 1).
  { unfold has_fake_stack. rewrite Z.ltb_ge. lia. }
  assert (Hd : DeleteFakeStack tid w = w <-> fake_stack_ (self w) = 0).
  { split; [|apply DeleteFakeStack_null].
    intros E. pose proof (DeleteFakeStack_clears tid w) as C.
    now rewrite E in C. }
  split; [exact Hh|]. split; [exact Hd|]. split.
  - intros Ht E. apply Hd in E.
    unfold has_fake_stack in Ht. apply Z.ltb_lt in Ht. lia.
  - rewrite Hh, Hd. lia.
Qed.

Lemma has_fake_stack_vs_teardown_witness :
  let w := mkWorld (with_fake_stack 1 two_stacks) 0 1 [] in
  has_fake_stack (self w) = false /\ DeleteFakeStack 7 w <> w.
Proof.
  intros w.
  destruct (has_fake_stack_vs_teardown 7 w) as (_ & _ & _ & H).
  - split; [discriminate | reflexivity].
  - apply H. reflexivity.
Defined.

(** ** More on the scoped guards *)

Lemma setUnwinding_twice b b' t :
  setUnwinding b (setUnwinding b' t) = setUnwinding b t.
Proof. reflexivity. Qed.

Lemma setInDeadlySignal_twice b b' t :
  setInDeadlySignal b (setInDeadlySignal b' t) = setInDeadlySignal b t.
Proof. reflexivity. Qed.

Lemma setUnwinding_same t : setUnwinding (unwinding_ t) t = t.
Proof. now destruct t. Qed.

Lemma setInDeadlySignal_same t : setInDeadlySignal (in_deadly_signal_ t) t = t.
Proof. now destruct t. Qed.

(** X15.  A scope under [ScopedUnwinding g(t)] on a live thread runs its body
    on the heap in which that thread's unwinding flag is set, and on leaving
    clears the flag in the thread as the body left it.  Nothing else is
    written: no other thread, and no other member of the thread.  The same
    holds of [ScopedDeadlySignal] and the deadly-signal flag. *)
Theorem guard_scopes_on_live_thread
    (h h2 h2' : gmap nat AsanThread) (l : nat) (t t2 t2' : AsanThread)
    (body : gmap nat AsanThread -> result (gmap nat AsanThread)) :
  h !! l = Some t ->
  body (<[l := setUnwinding true t]> h) = Ok h2 -> h2 !! l = Some t2 ->
  body (<[l := setInDeadlySignal true t]> h) = Ok h2' -> h2' !! l = Some t2' ->
  (unwinding_scope (Some l) body h = Ok (<[l := setUnwinding false t2]> h2) /\
   (forall l', l' <> l ->
      (<[l := setUnwinding false t2]> h2) !! l' = h2 !! l') /\
   isInDeadlySignal (setUnwinding false t2) = isInDeadlySignal t2 /\
   stacks_ (setUnwinding false t2) = stacks_ t2 /\
   roles_of (setUnwinding false t2) = roles_of t2 /\
   fake_stack_ (setUnwinding false t2) = fake_stack_ t2) /\
  (deadly_signal_scope (Some l) body h
     = Ok (<[l := setInDeadlySignal false t2']> h2') /\
   (forall l', l' <> l ->
      (<[l := setInDeadlySignal false t2']> h2') !! l' = h2' !! l') /\
   isUnwinding (setInDeadlySignal false t2') = isUnwinding t2' /\
   stacks_ (setInDeadlySignal false t2') = stacks_ t2' /\
   roles_of (setInDeadlySignal false t2') = roles_of t2' /\
   fake_stack_ (setInDeadlySignal false t2') = fake_stack_ t2').
Proof.
  intros Hl Hb H2 Hb' H2'. split.
  - split.
    + unfold unwinding_scope, ScopedUnwinding_enter, ScopedUnwinding_exit.
      rewrite (call_member_live h l t _ Hl). cbn [bind fst snd su_thread].
      rewrite Hb. cbn [bind].
      now rewrite (call_member_live h2 l t2 _ H2).
    + split; [|now repeat split].
      intros l' Hne. now rewrite lookup_insert_ne.
  - split.
    + unfold deadly_signal_scope, ScopedDeadlySignal_enter,
        ScopedDeadlySignal_exit. cbn [sd_thread].
      rewrite (call_member_live h l t _ Hl). cbn [bind fst snd sd_thread].
      rewrite Hb'. cbn [bind].
      now rewrite (call_member_live h2' l t2' _ H2').
    + split; [|now repeat split].
      intros l' Hne. now rewrite lookup_insert_ne.
Qed.

Lemma guard_scopes_on_live_thread_witness :
  unwinding_scope (Some 0%nat) Ok one_thread_heap
    = Ok (<[0%nat := setUnwinding false (setUnwinding true two_stacks)]>
            (<[0%nat := setUnwinding true two_stacks]> one_thread_heap)) /\
  deadly_signal_scope (Some 0%nat) Ok one_thread_heap
    = Ok (<[0%nat := setInDeadlySignal false (setInDeadlySignal true two_stacks)]>
            (<[0%nat := setInDeadlySignal true two_stacks]> one_thread_heap)).
Proof.
  destruct (guard_scopes_on_live_thread
              one_thread_heap
              (<[0%nat := setUnwinding true two_stacks]> one_thread_heap)
              (<[0%nat := setInDeadlySignal true two_stacks]> one_thread_heap)
              0%nat two_stacks
              (setUnwinding true two_stacks)
              (setInDeadlySignal true two_stacks) Ok)
    as ((H1 & _) & (H2 & _)); try reflexivity.
  split; [exact H1 | exact H2].
Defined.

(** X16.  Leaving a guard clears its flag; it does not put back the value
    the flag had on entry.  When a second [ScopedUnwinding] (or
    [ScopedDeadlySignal]) on the same live thread is entered and left inside
    a first one, the flag reads false from then on, although the first guard
    has not been left; and a scope with an empty body restores the heap
    exactly only when the flag was false on entry. *)
Theorem guard_exit_clears_flag
    (h : gmap nat AsanThread) (l : nat) (t : AsanThread) :
  h !! l = Some t ->
  (exists g1 h1 g2 h2 h3,
     ScopedUnwinding_enter (Some l) h = Ok (g1, h1) /\
     ScopedUnwinding_enter (Some l) h1 = Ok (g2, h2) /\
     isUnwinding <$> (h2 !! l) = Some true /\
     ScopedUnwinding_exit g2 h2 = Ok h3 /\
     isUnwinding <$> (h3 !! l) = Some false) /\
  (exists g1 h1 g2 h2 h3,
     ScopedDeadlySignal_enter (Some l) h = Ok (g1, h1) /\
     ScopedDeadlySignal_enter (Some l) h1 = Ok (g2, h2) /\
     isInDeadlySignal <$> (h2 !! l) = Some true /\
     ScopedDeadlySignal_exit g2 h2 = Ok h3 /\
     isInDeadlySignal <$> (h3 !! l) = Some false) /\
  unwinding_scope (Some l) Ok h = Ok (<[l := setUnwinding false t]> h) /\
  deadly_signal_scope (Some l) Ok h = Ok (<[l := setInDeadlySignal false t]> h) /\
  (unwinding_scope (Some l) Ok h = Ok h <-> isUnwinding t = false) /\
  (deadly_signal_scope (Some l) Ok h = Ok h <-> isInDeadlySignal t = false).
Proof.
  intros Hl.
  assert (EU : unwinding_scope (Some l) Ok h = Ok (<[l := setUnwinding false t]> h)).
  { unfold unwinding_scope, ScopedUnwinding_enter, ScopedUnwinding_exit.
    rewrite (call_member_live h l t _ Hl). cbn [bind fst snd su_thread].
    erewrite call_member_live by apply lookup_insert_eq.
    now rewrite insert_insert_eq. }
  assert (ED : deadly_signal_scope (Some l) Ok h
               = Ok (<[l := setInDeadlySignal false t]> h)).
  { unfold deadly_signal_scope, ScopedDeadlySignal_enter,
      ScopedDeadlySignal_exit. cbn [sd_thread].
    rewrite (call_member_live h l t _ Hl). cbn [bind fst snd sd_thread].
    erewrite call_member_live by apply lookup_insert_eq.
    now rewrite insert_insert_eq. }
  split; [|split; [|split; [exact EU|split; [exact ED|split]]]].
  - unfold ScopedUnwinding_enter, ScopedUnwinding_exit.
    rewrite (call_member_live h l t _ Hl). cbn [bind].
    do 2 eexists.
    erewrite call_member_live by apply lookup_insert_eq. cbn [bind].
    do 3 eexists. split; [reflexivity|]. split; [reflexivity|].
    rewrite lookup_insert_eq. split; [reflexivity|]. cbn [su_thread].
    erewrite call_member_live by apply lookup_insert_eq.
    split; [reflexivity|]. now rewrite lookup_insert_eq.
  - unfold ScopedDeadlySignal_enter, ScopedDeadlySignal_exit. cbn [sd_thread].
    rewrite (call_member_live h l t _ Hl). cbn [bind].
    do 2 eexists.
    erewrite call_member_live by apply lookup_insert_eq. cbn [bind].
    do 3 eexists. split; [reflexivity|]. split; [reflexivity|].
    rewrite lookup_insert_eq. split; [reflexivity|]. cbn [sd_thread].
    erewrite call_member_live by apply lookup_insert_eq.
    split; [reflexivity|]. now rewrite lookup_insert_eq.
  - rewrite EU. split.
    + intros E. inversion E as [E'].
      assert (Hx : (<[l := setUnwinding false t]> h) !! l = h !! l)
        by now rewrite E'.
      rewrite lookup_insert_eq, Hl in Hx. inversion Hx as [Ht].
      unfold isUnwinding. now rewrite <- Ht at 1.
    + intros Hf. unfold isUnwinding in Hf. rewrite <- Hf.
      rewrite setUnwinding_same. now rewrite insert_id.
  - rewrite ED. split.
    + intros E. inversion E as [E'].
      assert (Hx : (<[l := setInDeadlySignal false t]> h) !! l = h !! l)
        by now rewrite E'.
      rewrite lookup_insert_eq, Hl in Hx. inversion Hx as [Ht].
      unfold isInDeadlySignal. now rewrite <- Ht at 1.
    + intros Hf. unfold isInDeadlySignal in Hf. rewrite <- Hf.
      rewrite setInDeadlySignal_same. now rewrite insert_id.
Qed.

Lemma guard_exit_clears_flag_witness :
  unwinding_scope (Some 0%nat) Ok one_thread_heap = Ok one_thread_heap.
Proof.
  destruct (guard_exit_clears_flag one_thread_heap 0%nat two_stacks eq_refl)
    as (_ & _ & _ & _ & H & _).
  apply H. reflexivity.
Defined.

(** ** Empty descriptors *)

(** X17.  A descriptor whose top is not above its bottom, such as the
    all-zero one, contains no address.  On a thread whose previous descriptor
    is such, [CurrentStack()] is [next_stack_] for every caller, and the
    accessors and the membership test read next's descriptor. *)
Theorem empty_previous_defers_to_next
    (t : AsanThread) (sp addr : Z) (p n : slot) :
  previous_stack_ t = Some p -> next_stack_ t = Some n ->
  stack_top (stacks_get (stacks_ t) p) <= stack_bottom (stacks_get (stacks_ t) p) ->
  in_range (stacks_get (stacks_ t) p) addr = false /\
  CurrentStack sp t = Ok (next_stack_ t) /\
  current_desc sp t = Ok (stacks_get (stacks_ t) n) /\
  get_stack_size sp t = Ok (stack_size (stacks_get (stacks_ t) n)) /\
  AddrIsInStack sp addr t = Ok (in_range (stacks_get (stacks_ t) n) addr).
Proof.
  intros Hp Hn Hle.
  assert (He : forall a, in_range (stacks_get (stacks_ t) p) a = false).
  { intros a. apply not_true_is_false. rewrite in_range_spec. lia. }
  assert (HC : CurrentStack sp t = Ok (Some n)).
  { rewrite (CurrentStack_eq t sp p Hp), He. now rewrite Hn. }
  split; [apply He|]. split; [now rewrite Hn|].
  unfold current_desc, get_stack_size, AddrIsInStack, AddrIsInStack_in.
  rewrite HC. now repeat split.
Qed.

Lemma empty_previous_defers_to_next_witness :
  in_range zero_desc 350 = false /\
  CurrentStack 150 zero_thread_roles = Ok (Some Slot1) /\
  current_desc 150 zero_thread_roles = Ok zero_desc /\
  get_stack_size 150 zero_thread_roles = Ok 0 /\
  AddrIsInStack 150 350 zero_thread_roles = Ok false.
Proof.
  apply (empty_previous_defers_to_next zero_thread_roles 150 350 Slot0 Slot1);
    [reflexivity | reflexivity | discriminate].
Defined.
